(** * Hybrid waterfall chart: row parser, layout engine and drawing

    A shallow embedding of the visual's TypeScript class [Visual]
    (parseData, computeBarPositions, renderChart, formatValue, update)
    together with the properties of the layout that the specification
    states.

    Numbers.  A JavaScript number is an IEEE-754 double.  The embedding
    idealises finite numbers as exact rationals ([Q]); the only non-finite
    value the parser can meet, NaN out of a coercion, is [None] in an
    [option Q].  Results that depend on rounding, on infinities or on a
    division by zero are outside that model: a cell cannot hold Infinity or
    NaN, and [toFixed] rounds the exact quotient where the code rounds the
    double one (they part on ties such as 1.005).  The properties proved on
    it either follow the code's own order of operations, and use no law of
    arithmetic, or say that they are about exact arithmetic.

    Where rounding decides, the code is given again in binary64: module
    [Double] has the horizontal pass of computeBarPositions on Rocq's
    primitive floats, which are IEEE-754 doubles rounded to nearest even,
    as JavaScript numbers are. *)

From Stdlib Require Import List String Ascii Bool Arith ZArith Lia.
From Stdlib Require Import QArith Qminmax Qabs Qround Lqa.
From Stdlib Require Import DecimalString Sorted Permutation.
From Stdlib Require Floats.
Import ListNotations.

Local Open Scope string_scope.
Local Open Scope Q_scope.

(** ** The JavaScript built-ins the visual relies on *)

Module Js.

(** Conversions between numbers and strings whose full ECMAScript
    definition is of no concern here: [String(n)] for a number [n] and
    [Number(s)] for a string [s] ([None] is NaN). *)
Class Builtins := {
  NumberToString : Q -> string;
  StringToNumber : string -> option Q
}.

(** A cell of a column: powerbi.PrimitiveValue, plus the [undefined] an
    out-of-range index reads. *)
Inductive PrimitiveValue :=
| PUndefined
| PNull
| PBool (b : bool)
| PNumber (n : Q)
| PString (s : string).

Definition Qlt_bool (a b : Q) : bool := negb (Qle_bool b a).

(** [arr[i]]: reading past the end gives [undefined]. *)
Definition index (arr : list PrimitiveValue) (i : nat) : PrimitiveValue :=
  nth i arr PUndefined.

Definition ToBoolean (v : PrimitiveValue) : bool :=
  match v with
  | PUndefined | PNull => false
  | PBool b => b
  | PNumber n => negb (Qeq_bool n 0)
  | PString s => negb (String.eqb s "")
  end.

Definition ToNumber `{Builtins} (v : PrimitiveValue) : option Q :=
  match v with
  | PUndefined => None
  | PNull => Some 0
  | PBool b => Some (if b then 1 else 0)
  | PNumber n => Some n
  | PString s => StringToNumber s
  end.

Definition ToString `{Builtins} (v : PrimitiveValue) : string :=
  match v with
  | PUndefined => "undefined"
  | PNull => "null"
  | PBool b => if b then "true" else "false"
  | PNumber n => NumberToString n
  | PString s => s
  end.

(** [v || d] on cells. *)
Definition or_value (v d : PrimitiveValue) : PrimitiveValue :=
  if ToBoolean v then v else d.

(** [n || d] on numbers: NaN and 0 are falsy. *)
Definition or_number (n : option Q) (d : Q) : Q :=
  match n with
  | Some q => if Qeq_bool q 0 then d else q
  | None => d
  end.

(** [s || d] on strings: the empty string is falsy. *)
Definition or_string (s d : string) : string :=
  if String.eqb s "" then d else s.

Definition lower_ascii (c : ascii) : ascii :=
  let n := nat_of_ascii c in
  if (65 <=? n)%nat && (n <=? 90)%nat then ascii_of_nat (n + 32) else c.

(** [String.prototype.toLowerCase], on the ASCII letters. *)
Fixpoint toLowerCase (s : string) : string :=
  match s with
  | EmptyString => EmptyString
  | String c s' => String (lower_ascii c) (toLowerCase s')
  end.

Definition of_nat (n : nat) : Q := inject_Z (Z.of_nat n).

(** Truncation towards zero, and the remainder [a % b] built on it (the
    result takes the sign of the dividend). *)
Definition trunc (q : Q) : Z := Z.quot (Qnum q) (Zpos (Qden q)).

Definition rem (a b : Q) : Q := a - b * inject_Z (trunc (a / b)).

Definition digits (n : Z) : string := NilZero.string_of_uint (N.to_uint (Z.to_N n)).

Fixpoint zeros (k : nat) : string :=
  match k with
  | O => ""
  | S k' => String "0" (zeros k')
  end.

(** [Number.prototype.toFixed]: [n] is the integer closest to [x * 10^f],
    the larger one on a tie; a magnitude of [10^21] or more is printed by
    [String]. *)
Definition toFixed `{Builtins} (x : Q) (f : nat) : string :=
  let s := if Qlt_bool x 0 then "-" else "" in
  let x := if Qlt_bool x 0 then - x else x in
  if Qle_bool (inject_Z (10 ^ 21)) x then s ++ NumberToString x
  else
    let n := Qfloor (x * inject_Z (10 ^ Z.of_nat f) + (1 # 2)) in
    let m := digits n in
    let m :=
      match f with
      | O => m
      | _ =>
          let k := String.length m in
          let m := if (k <=? f)%nat then zeros (f + 1 - k) ++ m else m in
          let k := String.length m in
          substring 0 (k - f) m ++ "." ++ substring (k - f) f m
      end in
    s ++ m.

Fixpoint all_zeros (s : string) : bool :=
  match s with
  | EmptyString => false
  | String c EmptyString => Ascii.eqb c "0"
  | String c s' => Ascii.eqb c "0" && all_zeros s'
  end.

(** Does [/\.?0+$/] match the whole of [s]? *)
Definition dot_zeros (s : string) : bool :=
  match s with
  | String "." s' => all_zeros s'
  | _ => all_zeros s
  end.

(** [s.replace(/\.?0+$/, "")]: the leftmost match runs to the end of the
    string, so the replacement cuts the string there. *)
Fixpoint strip_dot_zeros (s : string) : string :=
  if dot_zeros s then ""
  else
    match s with
    | EmptyString => ""
    | String c s' => String c (strip_dot_zeros s')
    end.

End Js.

Import Js.

(** ** Data model *)

Inductive BarType := step | subtotal | total | bar.

Definition BarType_eqb (a b : BarType) : bool :=
  match a, b with
  | step, step | subtotal, subtotal | total, total | bar, bar => true
  | _, _ => false
  end.

Record StackedValue := {
  measureName : string;
  value : Q;
  color : string
}.

Record BarData := {
  category : string;
  barType : BarType;
  sequence : Q;
  stackedValues : list StackedValue;
  totalValue : Q;
  startY : Q;
  endY : Q;
  xPosition : Q
}.

(** [bar.xPosition = x] and [bar.startY = s; bar.endY = e]. *)
Definition set_xPosition (b : BarData) (x : Q) : BarData :=
  {| category := category b; barType := barType b; sequence := sequence b;
     stackedValues := stackedValues b; totalValue := totalValue b;
     startY := startY b; endY := endY b; xPosition := x |}.

Definition set_Y (b : BarData) (s e : Q) : BarData :=
  {| category := category b; barType := barType b; sequence := sequence b;
     stackedValues := stackedValues b; totalValue := totalValue b;
     startY := s; endY := e; xPosition := xPosition b |}.

(** The host's table: category and value columns share one shape. *)
Record DataViewMetadataColumn := { displayName : option string }.

Record DataViewCategoricalColumn := {
  source : DataViewMetadataColumn;
  values : list PrimitiveValue
}.

Record DataViewCategorical := {
  categories : option (list DataViewCategoricalColumn);
  categorical_values : option (list DataViewCategoricalColumn)
}.

Record DataView := { categorical : option DataViewCategorical }.

Record IViewport := { width : Q; height : Q }.

Record VisualUpdateOptions := {
  dataViews : option (list DataView);
  viewport : IViewport
}.

(** The formatting settings, each slice by its [value]. *)
Record ChartSettingsCard := {
  barWidth : Q;
  barGap : Q;
  showValues : bool;
  valueFontSize : Q;
  showConnectors : bool
}.

Record ColorSettingsCard := {
  defaultBarColor : string;
  subtotalColor : string;
  totalColor : string;
  usePatternForSubtotal : bool;
  usePatternForTotal : bool;
  separatorColor : string;
  connectorColor : string
}.

Record AxisSettingsCard := {
  showXAxis : bool;
  xAxisFontSize : Q;
  labelRotation : Q;
  xAxisColor : string
}.

Record VisualFormattingSettingsModel := {
  chartSettings : ChartSettingsCard;
  colorSettings : ColorSettingsCard;
  axisSettings : AxisSettingsCard
}.

(** The host: [colorPalette.getColor(name).value]. *)
Record IVisualHost := { getColor : string -> string }.

(** An SVG element: tag, attributes in the order they were first set,
    text content and children. *)
#[local] Unset Elimination Schemes.
Inductive SvgNode :=
| Element (tagName : string) (attributes : list (string * string))
          (textContent : string) (childNodes : list SvgNode).
#[local] Set Elimination Schemes.

Definition tagName_of (n : SvgNode) : string :=
  let 'Element t _ _ _ := n in t.
Definition attributes_of (n : SvgNode) : list (string * string) :=
  let 'Element _ a _ _ := n in a.
Definition textContent_of (n : SvgNode) : string :=
  let 'Element _ _ t _ := n in t.
Definition childNodes_of (n : SvgNode) : list SvgNode :=
  let 'Element _ _ _ c := n in c.

Fixpoint getAttribute (attrs : list (string * string)) (name : string)
  : option string :=
  match attrs with
  | [] => None
  | (k, v) :: rest => if String.eqb k name then Some v else getAttribute rest name
  end.

Fixpoint setAttribute (attrs : list (string * string)) (name v : string)
  : list (string * string) :=
  match attrs with
  | [] => [(name, v)]
  | (k, w) :: rest =>
      if String.eqb k name then (k, v) :: rest
      else (k, w) :: setAttribute rest name v
  end.

(** The visual's fields. *)
Record Visual := {
  svgContainer : SvgNode;
  formattingSettings : VisualFormattingSettingsModel;
  populateFormattingSettingsModel :
    option DataView -> VisualFormattingSettingsModel;
  host : IVisualHost;
  bars : list BarData;
  _computedBarWidth : option Q;
  _computedBarGap : option Q
}.

(** ** Array.prototype.sort

    The built-in is known by its result: under a consistent comparison
    function, [a] comes before [b] when [compareFn a b < 0], and elements
    that compare equal keep their order (the sort is stable since
    ECMAScript 2019).  It is modelled by the insertion sort with that
    result: taking the elements from the last to the first, each one moves
    past exactly the elements it compares greater than. *)
Section Sort.
Context {A : Type} (compareFn : A -> A -> Q).

Fixpoint insert (x : A) (l : list A) : list A :=
  match l with
  | [] => [x]
  | y :: l' => if Qlt_bool 0 (compareFn x y) then y :: insert x l' else x :: l
  end.

Definition sort (l : list A) : list A := fold_right insert [] l.

End Sort.

(** ** Data parsing *)

Section ParseData.
Context `{Builtins}.

Definition mapBarType (barTypeRaw : string) : BarType :=
  if String.eqb barTypeRaw "subtotal" then subtotal
  else if String.eqb barTypeRaw "total" then total
  else if String.eqb barTypeRaw "bar" then bar
  else step.

(** The loop over the value columns for row [i], from column [v] on, with
    the [stackedValues] and [totalValue] collected so far. *)
Fixpoint collectStacked (host : IVisualHost) (defaultColor : string)
    (valueColumns : list DataViewCategoricalColumn) (i v : nat)
    (stackedValues : list StackedValue) (totalValue : Q)
  : list StackedValue * Q :=
  match valueColumns with
  | [] => (stackedValues, totalValue)
  | valueCol :: rest =>
      let val := or_number (ToNumber (index (values valueCol) i)) 0 in
      if negb (Qeq_bool val 0) then
        let measureName :=
          or_string (match displayName (source valueCol) with
                     | Some s => s | None => "" end)
                    ("Value " ++ NumberToString (of_nat (v + 1))) in
        let color := or_string (getColor host measureName) defaultColor in
        collectStacked host defaultColor rest i (S v)
          (stackedValues ++
             [{| measureName := measureName; value := val; color := color |}])
          (totalValue + val)
      else collectStacked host defaultColor rest i (S v) stackedValues totalValue
  end.

(** The body of the loop over the rows. *)
Definition parseRow (host : IVisualHost) (defaultColor : string)
    (categoryColumn barTypeColumn : DataViewCategoricalColumn)
    (sequenceColumn : option DataViewCategoricalColumn)
    (valueColumns : list DataViewCategoricalColumn) (i : nat) : BarData :=
  let category :=
    ToString (or_value (index (values categoryColumn) i) (PString "")) in
  let barTypeRaw :=
    toLowerCase
      (ToString (or_value (index (values barTypeColumn) i) (PString "step"))) in
  let sequence :=
    match sequenceColumn with
    | Some c => or_number (ToNumber (index (values c) i)) (of_nat i)
    | None => of_nat i
    end in
  let barType := mapBarType barTypeRaw in
  let '(stackedValues, totalValue) :=
    collectStacked host defaultColor valueColumns i 0 [] 0 in
  {| category := category; barType := barType; sequence := sequence;
     stackedValues := stackedValues; totalValue := totalValue;
     startY := 0; endY := 0; xPosition := 0 |}.

(** The bars as pushed, before the sort. *)
Definition parseRows (this : Visual) (cats : list DataViewCategoricalColumn)
    (vals : option (list DataViewCategoricalColumn)) : list BarData :=
  match cats with
  | categoryColumn :: barTypeColumn :: rest =>
      let sequenceColumn :=
        match rest with c :: _ => Some c | [] => None end in
      let valueColumns := match vals with Some l => l | None => [] end in
      let defaultColor :=
        defaultBarColor (colorSettings (formattingSettings this)) in
      map (parseRow (host this) defaultColor categoryColumn barTypeColumn
             sequenceColumn valueColumns)
          (seq 0 (List.length (values categoryColumn)))
  | _ => []
  end.

Definition parseData (this : Visual) (dataView : DataView) : list BarData :=
  match categorical dataView with
  | None => []
  | Some categorical =>
      match categories categorical with
      | None => []
      | Some cats =>
          if (List.length cats <? 2)%nat then []
          else
            sort (fun a b => sequence a - sequence b)
                 (parseRows this cats (categorical_values categorical))
      end
  end.

End ParseData.

Section FormatValue.
Context `{Builtins}.

(** [formatValue]; its first guard, against [null] and [undefined], never
    fires on a number. *)
Definition formatValue (value : Q) : string :=
  if Qeq_bool value 0 then "0"
  else
    let abs := Qabs value in
    let sign := if Qlt_bool value 0 then "-" else "" in
    if Qle_bool 1000000000 abs then
      sign ++ toFixed (abs / 1000000000) 1 ++ "B"
    else if Qle_bool 1000000 abs then
      let formatted := abs / 1000000 in
      sign ++ (if Qeq_bool (rem formatted 1) 0
               then toFixed formatted 0 else toFixed formatted 2) ++ "M"
    else if Qle_bool 1000 abs then
      let formatted := abs / 1000 in
      sign ++ (if Qeq_bool (rem formatted 1) 0
               then toFixed formatted 0 else toFixed formatted 2) ++ "K"
    else strip_dot_zeros (toFixed value 2).

End FormatValue.


(** ** Position calculation *)

(** The loop that sets [xPosition], [currentX] advancing by [dx]. *)
Fixpoint layoutX (currentX dx : Q) (bars : list BarData) : list BarData :=
  match bars with
  | [] => []
  | b :: rest => set_xPosition b currentX :: layoutX (currentX + dx) dx rest
  end.

(** The state of the waterfall loop. *)
Record YState := { runningTotal : Q; lastWaterfallEnd : Q }.

(** One turn of the waterfall loop. *)
Definition stepY (st : YState) (b : BarData) : BarData * YState :=
  match barType b with
  | step =>
      let startY := runningTotal st in
      let endY := runningTotal st + totalValue b in
      (set_Y b startY endY, {| runningTotal := endY; lastWaterfallEnd := endY |})
  | subtotal => (set_Y b 0 (runningTotal st), st)
  | total => (set_Y b 0 (runningTotal st), st)
  | bar => (set_Y b 0 (totalValue b), st)
  end.

Fixpoint layoutY (st : YState) (bars : list BarData)
  : list BarData * YState :=
  match bars with
  | [] => ([], st)
  | b :: rest =>
      let '(b', st') := stepY st b in
      let '(rest', st'') := layoutY st' rest in
      (b' :: rest', st'')
  end.

Definition margin_left : Q := 50.
Definition margin_right : Q := 20.
Definition margin_top : Q := 30.
Definition margin_bottom : Q := 60.

Definition availableWidth (viewportWidth : Q) : Q :=
  viewportWidth - margin_left - margin_right.

Definition gapRatio (s : ChartSettingsCard) : Q := barGap s / barWidth s.

Definition totalUnits (s : ChartSettingsCard) (numBars : Q) : Q :=
  numBars + (numBars - 1) * gapRatio s.

Definition dynamicBarWidth (s : ChartSettingsCard) (numBars viewportWidth : Q)
  : Q :=
  Qmin (availableWidth viewportWidth / totalUnits s numBars) (barWidth s * 2).

Definition dynamicBarGap (s : ChartSettingsCard) (numBars viewportWidth : Q)
  : Q :=
  dynamicBarWidth s numBars viewportWidth * gapRatio s.

Definition computeBarPositions (this : Visual) (viewportWidth viewportHeight : Q)
  : Visual :=
  let s := chartSettings (formattingSettings this) in
  let numBars := of_nat (List.length (bars this)) in
  let w := dynamicBarWidth s numBars viewportWidth in
  let g := dynamicBarGap s numBars viewportWidth in
  let bars1 := layoutX margin_left (w + g) (bars this) in
  let bars2 :=
    fst (layoutY {| runningTotal := 0; lastWaterfallEnd := 0 |} bars1) in
  {| svgContainer := svgContainer this;
     formattingSettings := formattingSettings this;
     populateFormattingSettingsModel := populateFormattingSettingsModel this;
     host := host this;
     bars := bars2;
     _computedBarWidth := Some w;
     _computedBarGap := Some g |}.

(** ** The horizontal pass in double precision

    The first half of computeBarPositions once more, on doubles: the same
    expressions in the same order, each operation rounded.  A bar is
    anything; the pass only counts the bars and gives each its xPosition. *)

Module Double.
Import Floats.
Local Open Scope float_scope.

(** [this.bars.length] as a number (exact below 2^53). *)
Definition of_nat (n : nat) : float := of_uint63 (Uint63.of_Z (Z.of_nat n)).

(** [Math.min] of two numbers: NaN if either is, and -0 before +0. *)
Definition min (x y : float) : float :=
  if is_nan x || is_nan y then nan
  else if x <? y then x
  else if y <? x then y
  else if is_zero x && get_sign y then y
  else x.

Definition margin_left : float := 50.
Definition margin_right : float := 20.

Definition availableWidth (viewportWidth : float) : float :=
  viewportWidth - margin_left - margin_right.

Definition gapRatio (barWidth barGap : float) : float := barGap / barWidth.

Definition totalUnits (barWidth barGap numBars : float) : float :=
  numBars + (numBars - 1) * gapRatio barWidth barGap.

Definition dynamicBarWidth (barWidth barGap numBars viewportWidth : float)
  : float :=
  min (availableWidth viewportWidth / totalUnits barWidth barGap numBars)
      (barWidth * 2).

Definition dynamicBarGap (barWidth barGap numBars viewportWidth : float)
  : float :=
  dynamicBarWidth barWidth barGap numBars viewportWidth
  * gapRatio barWidth barGap.

(** The loop that sets [xPosition]: each bar with the position it gets. *)
Fixpoint layoutX {A} (currentX dx : float) (bars : list A)
  : list (A * float) :=
  match bars with
  | [] => []
  | b :: rest => (b, currentX) :: layoutX (currentX + dx) dx rest
  end.

(** The rational a finite double stands for. *)
Definition toQ (x : float) : option Q :=
  match Prim2SF x with
  | S754_zero _ => Some 0%Q
  | S754_finite s m e =>
      Some ((if s then - (1) else 1) * inject_Z (Zpos m) * 2 ^ e)%Q
  | _ => None
  end.

End Double.

(** ** Rendering *)

Definition set_svgContainer (this : Visual) (svg : SvgNode) : Visual :=
  {| svgContainer := svg;
     formattingSettings := formattingSettings this;
     populateFormattingSettingsModel := populateFormattingSettingsModel this;
     host := host this;
     bars := bars this;
     _computedBarWidth := _computedBarWidth this;
     _computedBarGap := _computedBarGap this |}.

(** The container with its children replaced and its size set. *)
Definition resized `{Builtins} (svg : SvgNode) (width height : Q)
    (children : list SvgNode) : SvgNode :=
  Element (tagName_of svg)
    (setAttribute (setAttribute (attributes_of svg) "width"
                     (NumberToString width))
       "height" (NumberToString height))
    (textContent_of svg) children.

Definition is_bar (b : BarData) : bool := BarType_eqb (barType b) bar.
Definition is_step (b : BarData) : bool := BarType_eqb (barType b) step.

(** The search for the separator: [prev] is the bar before the one looked
    at, [None] on the first turn. *)
Fixpoint findSeparatorX (barGap : Q) (prev : option BarData)
    (bars : list BarData) : Q :=
  match bars with
  | [] => - (1)
  | b :: rest =>
      if is_bar b &&
         match prev with Some p => negb (is_bar p) | None => false end
      then xPosition b - barGap / 2
      else findSeparatorX barGap (Some b) rest
  end.

Definition nl : string := String (ascii_of_nat 10) "".

Section Render.
Context `{Builtins}.

Definition maxAbsValue (bars : list BarData) : Q :=
  let maxValue :=
    fold_left (fun m b => Qmax (Qmax m (Qabs (endY b))) (Qabs (startY b)))
              bars 0 in
  or_number (Some maxValue) 1.

Definition yScale (chartHeight maxValue v : Q) : Q :=
  margin_top + chartHeight - (v / maxValue) * chartHeight.

Definition defsNode : SvgNode :=
  Element "defs" [] ""
    [Element "pattern"
       [("id", "dots-pattern"); ("width", "6"); ("height", "6");
        ("patternUnits", "userSpaceOnUse")] ""
       [Element "circle"
          [("cx", "3"); ("cy", "3"); ("r", "1.5"); ("fill", "#333");
           ("opacity", "0.3")] "" []]].

Definition baselineNode (width y0 : Q) : SvgNode :=
  Element "line"
    [("x1", NumberToString (margin_left - 10));
     ("x2", NumberToString (width - margin_right));
     ("y1", NumberToString y0); ("y2", NumberToString y0);
     ("stroke", "#CCC"); ("stroke-width", "1")] "" [].

Definition separatorNode (colors : ColorSettingsCard) (separatorX height : Q)
  : SvgNode :=
  Element "line"
    [("x1", NumberToString separatorX); ("x2", NumberToString separatorX);
     ("y1", NumberToString margin_top);
     ("y2", NumberToString (height - margin_bottom));
     ("stroke", separatorColor colors); ("stroke-width", "2");
     ("stroke-dasharray", "6,4")] "" [].

(** The separator, drawn when the search left a positive [separatorX]. *)
Definition separatorNodes (colors : ColorSettingsCard) (barGap height : Q)
    (bars : list BarData) : list SvgNode :=
  let separatorX := findSeparatorX barGap None bars in
  if Qlt_bool 0 separatorX then [separatorNode colors separatorX height]
  else [].

Definition connectorNode (colors : ColorSettingsCard) (barWidth : Q)
    (ys : Q -> Q) (current next : BarData) : SvgNode :=
  Element "line"
    [("x1", NumberToString (xPosition current + barWidth));
     ("x2", NumberToString (xPosition next));
     ("y1", NumberToString (ys (endY current)));
     ("y2", NumberToString (ys (endY current)));
     ("stroke", connectorColor colors); ("stroke-width", "1");
     ("stroke-dasharray", "3,2")] "" [].

(** The loop over the adjacent pairs of bars. *)
Fixpoint connectorNodes (colors : ColorSettingsCard) (barWidth : Q)
    (ys : Q -> Q) (bars : list BarData) : list SvgNode :=
  match bars with
  | current :: (next :: _) as rest =>
      (if is_step current && is_step next
       then [connectorNode colors barWidth ys current next]
       else []) ++ connectorNodes colors barWidth ys rest
  | _ => []
  end.

Definition barTypeName (t : BarType) : string :=
  match t with
  | step => "step" | subtotal => "subtotal" | total => "total" | bar => "bar"
  end.

(** The rectangles of a stacked bar, from [currentStackY] upwards. *)
Fixpoint stackRects (b : BarData) (barWidth : Q) (ys : Q -> Q)
    (currentStackY : Q) (stacks : list StackedValue) : list SvgNode :=
  match stacks with
  | [] => []
  | stack :: rest =>
      let stackTopY := ys (currentStackY + value stack) in
      let stackBottomY := ys currentStackY in
      let stackHeight := Qabs (stackBottomY - stackTopY) in
      Element "rect"
        [("x", NumberToString (xPosition b));
         ("y", NumberToString (Qmin stackTopY stackBottomY));
         ("width", NumberToString barWidth);
         ("height", NumberToString (Qmax stackHeight 1));
         ("fill", color stack); ("stroke", "#fff"); ("stroke-width", "0.5")]
        ""
        [Element "title" []
           (category b ++ nl ++ measureName stack ++ ": "
              ++ formatValue (value stack)) []]
      :: stackRects b barWidth ys (currentStackY + value stack) rest
  end.

(** The labels inside a stacked bar. *)
Fixpoint stackLabels (b : BarData) (barWidth valueFontSize : Q) (ys : Q -> Q)
    (stackY : Q) (stacks : list StackedValue) : list SvgNode :=
  match stacks with
  | [] => []
  | stack :: rest =>
      let stackMidY := ys (stackY + value stack / 2) in
      Element "text"
        [("x", NumberToString (xPosition b + barWidth / 2));
         ("y", NumberToString (stackMidY + 4));
         ("text-anchor", "middle");
         ("font-size", NumberToString (valueFontSize - 1));
         ("fill", "#fff"); ("font-family", "Segoe UI, sans-serif")]
        (formatValue (value stack)) []
      :: stackLabels b barWidth valueFontSize ys (stackY + value stack) rest
  end.

Definition barGroupNode (chart : ChartSettingsCard) (colors : ColorSettingsCard)
    (barWidth : Q) (ys : Q -> Q) (b : BarData) : SvgNode :=
  let barTopY := ys (endY b) in
  let barBottomY := ys (startY b) in
  let barHeight := Qabs (barBottomY - barTopY) in
  let '(fillColor, usePattern) :=
    match barType b with
    | subtotal => (subtotalColor colors, usePatternForSubtotal colors)
    | total => (totalColor colors, usePatternForTotal colors)
    | _ => (defaultBarColor colors, false)
    end in
  let rects :=
    if (1 <? List.length (stackedValues b))%nat && negb usePattern then
      stackRects b barWidth ys (startY b) (stackedValues b)
    else
      let geometry :=
        [("x", NumberToString (xPosition b));
         ("y", NumberToString (Qmin barTopY barBottomY));
         ("width", NumberToString barWidth);
         ("height", NumberToString (Qmax barHeight 1))] in
      let rect :=
        Element "rect" (geometry ++ [("fill", fillColor)]) ""
          [Element "title" []
             (category b ++ ": " ++ formatValue (totalValue b)) []] in
      if usePattern then
        [rect; Element "rect" (geometry ++ [("fill", "url(#dots-pattern)")]) "" []]
      else [rect] in
  let labels :=
    if showValues chart then
      Element "text"
        [("x", NumberToString (xPosition b + barWidth / 2));
         ("y", NumberToString (barTopY - 5));
         ("text-anchor", "middle");
         ("font-size", NumberToString (valueFontSize chart));
         ("fill", "#333"); ("font-family", "Segoe UI, sans-serif")]
        (formatValue (totalValue b)) []
      :: (if (1 <? List.length (stackedValues b))%nat && Qlt_bool 30 barHeight
          then stackLabels b barWidth (valueFontSize chart) ys (startY b)
                 (stackedValues b)
          else [])
    else [] in
  Element "g" [("class", "bar-group bar-type-" ++ barTypeName (barType b))] ""
    (rects ++ labels).

Definition axisLabelNode (axis : AxisSettingsCard) (barWidth height : Q)
    (b : BarData) : SvgNode :=
  let rotation := labelRotation axis in
  let labelX := xPosition b + barWidth / 2 in
  let labelY := height - margin_bottom + 15 in
  Element "text"
    ([("x", NumberToString labelX); ("y", NumberToString labelY);
      ("font-size", NumberToString (xAxisFontSize axis));
      ("fill", xAxisColor axis); ("font-family", "Segoe UI, sans-serif")]
     ++ (if Qlt_bool 0 rotation then
           [("transform",
             "rotate(" ++ NumberToString rotation ++ ", "
               ++ NumberToString labelX ++ ", " ++ NumberToString labelY ++ ")");
            ("text-anchor", "start")]
         else [("text-anchor", "middle")]))
    (category b) [].

(** The children of the container after [renderChart], in drawing order. *)
Definition chartNodes (this : Visual) (width height : Q) : list SvgNode :=
  let chart := chartSettings (formattingSettings this) in
  let colors := colorSettings (formattingSettings this) in
  let axis := axisSettings (formattingSettings this) in
  let barWidth := or_number (_computedBarWidth this) (barWidth chart) in
  let barGap := or_number (_computedBarGap this) (barGap chart) in
  let chartHeight := height - margin_top - margin_bottom in
  let maxValue := maxAbsValue (bars this) in
  let ys := yScale chartHeight maxValue in
  [defsNode; baselineNode width (ys 0)]
    ++ separatorNodes colors barGap height (bars this)
    ++ (if showConnectors chart
        then connectorNodes colors barWidth ys (bars this) else [])
    ++ map (barGroupNode chart colors barWidth ys) (bars this)
    ++ (if showXAxis axis
        then map (axisLabelNode axis barWidth height) (bars this) else []).

Definition renderChart (this : Visual) (width height : Q) : Visual :=
  set_svgContainer this
    (resized (svgContainer this) width height (chartNodes this width height)).

Definition emptyStateNode (width height : Q) : SvgNode :=
  Element "text"
    [("x", NumberToString (width / 2)); ("y", NumberToString (height / 2));
     ("text-anchor", "middle"); ("fill", "#666"); ("font-size", "14");
     ("font-family", "Segoe UI, sans-serif")]
    "Add Category, Bar Type and Values to display the chart" [].

Definition renderEmptyState (this : Visual) (width height : Q) : Visual :=
  set_svgContainer this
    (resized (svgContainer this) width height [emptyStateNode width height]).

(** ** The update cycle *)

Definition set_formattingSettings (this : Visual)
    (m : VisualFormattingSettingsModel) : Visual :=
  {| svgContainer := svgContainer this;
     formattingSettings := m;
     populateFormattingSettingsModel := populateFormattingSettingsModel this;
     host := host this;
     bars := bars this;
     _computedBarWidth := _computedBarWidth this;
     _computedBarGap := _computedBarGap this |}.

Definition set_bars (this : Visual) (l : list BarData) : Visual :=
  {| svgContainer := svgContainer this;
     formattingSettings := formattingSettings this;
     populateFormattingSettingsModel := populateFormattingSettingsModel this;
     host := host this;
     bars := l;
     _computedBarWidth := _computedBarWidth this;
     _computedBarGap := _computedBarGap this |}.

(** [options.dataViews?.[0]] *)
Definition firstDataView (options : VisualUpdateOptions) : option DataView :=
  match dataViews options with
  | Some (dv :: _) => Some dv
  | _ => None
  end.

Definition update (this : Visual) (options : VisualUpdateOptions) : Visual :=
  let this :=
    set_formattingSettings this
      (populateFormattingSettingsModel this (firstDataView options)) in
  let w := width (viewport options) in
  let h := height (viewport options) in
  match firstDataView options with
  | None => renderEmptyState this w h
  | Some dataView =>
      match categorical dataView with
      | None => renderEmptyState this w h
      | Some _ =>
          let this := set_bars this (parseData this dataView) in
          if (List.length (bars this) =? 0)%nat then renderEmptyState this w h
          else renderChart (computeBarPositions this w h) w h
      end
  end.

End Render.

(** ** A concrete choice of the built-ins, for evaluating examples

    [String] is exact on the integers (below [10^21]) and only a
    placeholder elsewhere; [Number] reads the empty string and strings of
    decimal digits, and takes every other string for non-numeric. *)
Module Reference.

Definition NumberToString (q : Q) : string :=
  let n := Qnum (Qred q) in
  let d := Zpos (Qden (Qred q)) in
  let s := if (n <? 0)%Z then "-" ++ digits (- n) else digits n in
  if (d =? 1)%Z then s else s ++ "/" ++ digits d.

Definition StringToNumber (s : string) : option Q :=
  if String.eqb s "" then Some 0
  else
    match NilZero.uint_of_string s with
    | Some u => Some (inject_Z (Z.of_uint u))
    | None => None
    end.

#[export] Instance builtins : Builtins :=
  {| Js.NumberToString := NumberToString;
     Js.StringToNumber := StringToNumber |}.

Definition column (name : string) (cells : list PrimitiveValue)
  : DataViewCategoricalColumn :=
  {| source := {| displayName := Some name |}; values := cells |}.

(** The settings' defaults. *)
Definition defaults : VisualFormattingSettingsModel :=
  {| chartSettings :=
       {| barWidth := 40; barGap := 10; showValues := true;
          valueFontSize := 10; showConnectors := true |};
     colorSettings :=
       {| defaultBarColor := "#4472C4"; subtotalColor := "#5B9BD5";
          totalColor := "#2B5797"; usePatternForSubtotal := true;
          usePatternForTotal := false; separatorColor := "#666666";
          connectorColor := "#999999" |};
     axisSettings :=
       {| showXAxis := true; xAxisFontSize := 11; labelRotation := 0;
          xAxisColor := "#333333" |} |}.

(** The visual as its constructor leaves it, on a host without colours. *)
Definition fresh : Visual :=
  {| svgContainer :=
       Element "svg" [("class", "hybrid-waterfall-chart")] "" [];
     formattingSettings := defaults;
     populateFormattingSettingsModel := fun _ => defaults;
     host := {| getColor := fun _ => "" |};
     bars := [];
     _computedBarWidth := None;
     _computedBarGap := None |}.

Definition mkBar (name : string) (t : BarType) (v : Q) : BarData :=
  {| category := name; barType := t; sequence := 0;
     stackedValues := [{| measureName := "m"; value := v; color := "#000" |}];
     totalValue := v; startY := 0; endY := 0; xPosition := 0 |}.

End Reference.

(** ** Tables and visuals for the examples *)

Module Examples.
Import Reference.

(** The example of the specification: two steps, a subtotal and a bar. *)
Definition table : DataView :=
  {| categorical := Some
       {| categories := Some
            [column "Category"
               [PString "Start"; PString "Add"; PString "Subtotal";
                PString "Bar"];
             column "Type"
               [PString "step"; PString "step"; PString "subtotal";
                PString "bar"];
             column "Sequence" [PNumber 0; PNumber 1; PNumber 2; PNumber 3]];
          categorical_values := Some
            [column "Amount" [PNumber 100; PNumber 50; PNumber 0; PNumber 30];
             column "Other" [PNumber 0; PNumber (-5); PNumber 0; PNumber 0]]
       |} |}.

(** The same rows with the single measure of the specification. *)
Definition specTable : DataView :=
  {| categorical := Some
       {| categories := Some
            [column "Category"
               [PString "Start"; PString "Add"; PString "Subtotal";
                PString "Bar"];
             column "Type"
               [PString "step"; PString "step"; PString "subtotal";
                PString "bar"];
             column "Sequence" [PNumber 0; PNumber 1; PNumber 2; PNumber 3]];
          categorical_values := Some
            [column "Amount" [PNumber 100; PNumber 50; PNumber 0; PNumber 30]]
       |} |}.

Definition parsed : Visual := set_bars fresh (parseData fresh table).

Definition positioned : Visual := computeBarPositions parsed 500 300.

Definition steps : Visual :=
  set_bars fresh [mkBar "a" step 100; mkBar "b" step 50; mkBar "c" step (-30)].

(** Nine steps and a bar in a viewport 10 pixels wide. *)
Definition narrow : Visual :=
  update fresh
    {| dataViews := Some
         [{| categorical := Some
               {| categories := Some
                    [column "Category" (repeat (PString "c") 10);
                     column "Type"
                       (repeat (PString "step") 9 ++ [PString "bar"])];
                  categorical_values := Some
                    [column "Amount" (repeat (PNumber 10) 10)] |} |}];
       viewport := {| width := 10; height := 300 |} |}.

(** A step and a bar in a viewport 70 pixels wide: no width is left. *)
Definition flat : Visual :=
  update fresh
    {| dataViews := Some
         [{| categorical := Some
               {| categories := Some
                    [column "Category" [PString "a"; PString "b"];
                     column "Type" [PString "step"; PString "bar"]];
                  categorical_values := Some
                    [column "Amount" [PNumber 10; PNumber 5]] |} |}];
       viewport := {| width := 70; height := 300 |} |}.

(** A table without a sequence column. *)
Definition twoColumns : DataView :=
  {| categorical := Some
       {| categories := Some
            [column "Category" [PString "a"; PString "b"; PString "c"];
             column "Type" [PString "step"; PString "total"; PString "bar"]];
          categorical_values := Some
            [column "Amount" [PNumber 5; PNumber 0; PNumber (-2)]] |} |}.

(** An update that carries [table]. *)
Definition tableUpdate : VisualUpdateOptions :=
  {| dataViews := Some [table];
     viewport := {| width := 500; height := 300 |} |}.

End Examples.

(** ** Vocabulary of the properties *)

(** The sum of [vs], added up from 0 in list order as the loop does. *)
Definition prefixSum (vs : list Q) : Q := fold_left Qplus vs 0.

Definition spanY (b : BarData) : Q * Q := (startY b, endY b).

(** The state in which the waterfall loop starts. *)
Definition initialY : YState := {| runningTotal := 0; lastWaterfallEnd := 0 |}.

(** The value the parser reads in each value column for row [i]:
    [Number(valueCol.values[i]) || 0]. *)
Definition measureValues `{Builtins}
    (valueColumns : list DataViewCategoricalColumn) (i : nat) : list Q :=
  map (fun c => or_number (ToNumber (index (values c) i)) 0) valueColumns.

Definition nonzero (x : Q) : bool := negb (Qeq_bool x 0).

(** The bars whose [sequence] is [k]. *)
Definition withSequence (k : Q) (l : list BarData) : list BarData :=
  filter (fun b => Qeq_bool (sequence b) k) l.

Definition bySequence (a b : BarData) : Prop := sequence a <= sequence b.

(** The table of an update, when it has one. *)
Definition categoricalOf (options : VisualUpdateOptions)
  : option DataViewCategorical :=
  match firstDataView options with
  | Some dataView => categorical dataView
  | None => None
  end.

Definition categoryColumns (options : VisualUpdateOptions)
  : list DataViewCategoricalColumn :=
  match categoricalOf options with
  | Some c => match categories c with Some l => l | None => [] end
  | None => []
  end.

(** The rows of the table are those of its first categorical column. *)
Definition rowCount (options : VisualUpdateOptions) : nat :=
  match categoryColumns options with
  | c0 :: _ => List.length (values c0)
  | [] => 0
  end.

Definition inputAbsent (options : VisualUpdateOptions) : Prop :=
  categoricalOf options = None.

Definition fewerThanTwoCategories (options : VisualUpdateOptions) : Prop :=
  (List.length (categoryColumns options) < 2)%nat.

Definition zeroRows (options : VisualUpdateOptions) : Prop :=
  rowCount options = 0%nat.

(** The separator is the line dashed "6,4". *)
Definition isSeparator (n : SvgNode) : bool :=
  String.eqb (tagName_of n) "line" &&
  match getAttribute (attributes_of n) "stroke-dasharray" with
  | Some d => String.eqb d "6,4"
  | None => false
  end.

(** [b] is the bar at index [i > 0], it is a [bar] and the bar before it
    is not. *)
Definition boundaryAt (l : list BarData) (i : nat) (b : BarData) : Prop :=
  exists j p,
    i = S j /\ nth_error l j = Some p /\ nth_error l i = Some b /\
    barType p <> bar /\ barType b = bar.

Definition firstBoundary (l : list BarData) (i : nat) (b : BarData) : Prop :=
  boundaryAt l i b /\ forall j c, (j < i)%nat -> ~ boundaryAt l j c.

(** The list the search has in view: the bars left, after the one before
    them. *)
Definition inView (prev : option BarData) (l : list BarData) : list BarData :=
  match prev with Some p => p :: l | None => l end.

(** The running total a bar meets: the sum of the [step] bars before it,
    added up from 0 in list order. *)
Definition stepsBefore (l : list BarData) : Q :=
  fold_left Qplus (map totalValue (filter is_step l)) 0.

(** What the parser made of a row, apart from the layout's fields. *)
Definition parsedFields (b : BarData)
  : string * BarType * Q * list StackedValue * Q :=
  (category b, barType b, sequence b, stackedValues b, totalValue b).

(** A cell that is not there: read past the end of its column, or null. *)
Definition blank (v : PrimitiveValue) : Prop := v = PUndefined \/ v = PNull.

(** The bar of a row of blanks. *)
Definition blankBar (i : nat) : BarData :=
  {| category := ""; barType := step; sequence := of_nat i;
     stackedValues := []; totalValue := 0;
     startY := 0; endY := 0; xPosition := 0 |}.

(** The kinds of node at the top of the drawing: a connector is the line
    dashed "3,2". *)
Definition hasTag (t : string) (n : SvgNode) : bool :=
  String.eqb (tagName_of n) t.

Definition isConnector (n : SvgNode) : bool :=
  hasTag "line" n &&
  match getAttribute (attributes_of n) "stroke-dasharray" with
  | Some d => String.eqb d "3,2"
  | None => false
  end.

(** The pairs of neighbours that are both [step] bars, in order. *)
Definition stepPairs (l : list BarData) : list (BarData * BarData) :=
  filter (fun p => is_step (fst p) && is_step (snd p)) (combine l (tl l)).

(** What the parser promises of a stacked value: a name, and the colour the
    host gives that name, or else the default colour. *)
Definition namedAndColoured (host : IVisualHost) (defaultColor : string)
    (sv : StackedValue) : Prop :=
  measureName sv <> ""%string /\
  color sv = or_string (getColor host (measureName sv)) defaultColor /\
  ~ value sv == 0.

(** What the waterfall loop leaves in a bar, in the code's own operations:
    a step ends at its start plus its total, a bar spans from 0 to its
    total, a subtotal and a total start at 0. *)
Definition spanFromTotal (b : BarData) : Prop :=
  match barType b with
  | step => endY b = startY b + totalValue b
  | bar => startY b = 0 /\ endY b = totalValue b
  | subtotal | total => startY b = 0
  end.

(** The stacked values of a bar against its total and its span: they add
    up, in order from 0, to the total; a step ends at its start plus that
    sum; and a bar ends where adding them one by one from its start, as
    the drawing of the stacked segments does, arrives. *)
Definition stackAddsUp (b : BarData) : Prop :=
  totalValue b = prefixSum (map value (stackedValues b)) /\
  match barType b with
  | step => endY b = startY b + prefixSum (map value (stackedValues b))
  | bar =>
      startY b = 0 /\
      endY b = fold_left Qplus (map value (stackedValues b)) (startY b)
  | subtotal | total => startY b = 0
  end.






(** Both ends of a bar are zero. *)
Definition endsAreZero (b : BarData) : Prop := startY b == 0 /\ endY b == 0.

(** * Properties *)

Local Open Scope list_scope.

(** ** The waterfall loop *)

Lemma layoutY_cons st b rest :
  layoutY st (b :: rest) =
  (fst (stepY st b) :: fst (layoutY (snd (stepY st b)) rest),
   snd (layoutY (snd (stepY st b)) rest)).
Proof.
  cbn [layoutY]. destruct (stepY st b) as [b' st']. cbn [fst snd].
  destruct (layoutY st' rest) as [rest' st'']. reflexivity.
Qed.

Lemma layoutY_app st l1 l2 :
  layoutY st (l1 ++ l2) =
  (fst (layoutY st l1) ++ fst (layoutY (snd (layoutY st l1)) l2),
   snd (layoutY (snd (layoutY st l1)) l2)).
Proof.
  revert st. induction l1 as [|b l1 IH]; intros st.
  - simpl. now destruct (layoutY st l2).
  - rewrite <- app_comm_cons, !layoutY_cons, IH. reflexivity.
Qed.

Lemma layoutY_length st l : List.length (fst (layoutY st l)) = List.length l.
Proof.
  revert st. induction l as [|b l IH]; intros st; [reflexivity|].
  rewrite layoutY_cons. simpl. now rewrite IH.
Qed.

Lemma stepY_set_xPosition st b x :
  stepY st (set_xPosition b x) =
  (set_xPosition (fst (stepY st b)) x, snd (stepY st b)).
Proof. unfold stepY. simpl. now destruct (barType b). Qed.

(** The two loops of [computeBarPositions] do not interfere. *)
Lemma layoutY_layoutX st x dx l :
  layoutY st (layoutX x dx l) =
  (layoutX x dx (fst (layoutY st l)), snd (layoutY st l)).
Proof.
  revert st x. induction l as [|b l IH]; intros st x; [reflexivity|].
  cbn [layoutX]. rewrite !layoutY_cons, stepY_set_xPosition. cbn [fst snd].
  rewrite IH. reflexivity.
Qed.

Lemma layoutX_spanY x dx l : map spanY (layoutX x dx l) = map spanY l.
Proof.
  revert x. induction l as [|b l IH]; intros x; [reflexivity|].
  simpl. now rewrite IH.
Qed.

Lemma layoutX_length x dx l : List.length (layoutX x dx l) = List.length l.
Proof.
  revert x. induction l as [|b l IH]; intros x; [reflexivity|].
  simpl. now rewrite IH.
Qed.

Lemma computeBarPositions_bars this vw vh :
  exists x dx,
    bars (computeBarPositions this vw vh) =
    layoutX x dx (fst (layoutY initialY (bars this))).
Proof.
  unfold computeBarPositions. cbn [bars]. fold initialY.
  rewrite layoutY_layoutX. cbn [fst]. eauto.
Qed.

Lemma computeBarPositions_spanY this vw vh :
  map spanY (bars (computeBarPositions this vw vh)) =
  map spanY (fst (layoutY initialY (bars this))).
Proof.
  destruct (computeBarPositions_bars this vw vh) as (x & dx & ->).
  apply layoutX_spanY.
Qed.

Lemma computeBarPositions_length this vw vh :
  List.length (bars (computeBarPositions this vw vh)) = List.length (bars this).
Proof.
  destruct (computeBarPositions_bars this vw vh) as (x & dx & ->).
  now rewrite layoutX_length, layoutY_length.
Qed.

(** A run of [step] bars from any state: spans and final running total. *)
Lemma layoutY_steps l : forall st,
  Forall (fun b => barType b = step) l ->
  map spanY (fst (layoutY st l)) =
    map (fun i =>
           (fold_left Qplus (firstn i (map totalValue l)) (runningTotal st),
            fold_left Qplus (firstn (S i) (map totalValue l)) (runningTotal st)))
        (seq 0 (List.length l)) /\
  runningTotal (snd (layoutY st l)) =
    fold_left Qplus (map totalValue l) (runningTotal st).
Proof.
  induction l as [|b l IH]; intros st Hall; [split; reflexivity|].
  inversion Hall as [|? ? Hb Hl]; subst.
  rewrite layoutY_cons. cbn [fst snd].
  assert (Hs : stepY st b =
               (set_Y b (runningTotal st) (runningTotal st + totalValue b),
                {| runningTotal := runningTotal st + totalValue b;
                   lastWaterfallEnd := runningTotal st + totalValue b |})).
  { unfold stepY. now rewrite Hb. }
  rewrite Hs. cbn [fst snd].
  destruct (IH {| runningTotal := runningTotal st + totalValue b;
                  lastWaterfallEnd := runningTotal st + totalValue b |} Hl)
    as [IH1 IH2].
  split.
  - cbn [List.length seq map]. f_equal.
    rewrite IH1, <- seq_shift, map_map. reflexivity.
  - rewrite IH2. reflexivity.
Qed.

Lemma Forall_prefix {A} (P : A -> Prop) n l :
  Forall P l -> Forall P (firstn n l).
Proof.
  intros Hl. revert n. induction Hl as [|a l Ha Hl IH]; intros [|n]; simpl;
    constructor; auto.
Qed.

Lemma firstn_at {A} (l1 : list A) x l2 :
  firstn (List.length l1) (l1 ++ x :: l2) = l1.
Proof. induction l1 as [|a l1 IH]; simpl; [reflexivity | now rewrite IH]. Qed.

Lemma skipn_at {A} (l1 : list A) x l2 :
  skipn (S (List.length l1)) (l1 ++ x :: l2) = l2.
Proof. induction l1 as [|a l1 IH]; simpl; [reflexivity | exact IH]. Qed.

Lemma nth_error_at {A} (l1 : list A) x l2 :
  nth_error (l1 ++ x :: l2) (List.length l1) = Some x.
Proof. induction l1 as [|a l1 IH]; simpl; [reflexivity | exact IH]. Qed.

(** A bar whose turn leaves the state alone: it gets the span [(0, e)] and
    every other bar is laid out as if it were not there. *)
Lemma neutral_bar this vw vh pre b post e :
  bars this = pre ++ b :: post ->
  stepY (snd (layoutY initialY pre)) b =
    (set_Y b 0 e, snd (layoutY initialY pre)) ->
  let before := snd (layoutY initialY pre) in
  let out := bars (computeBarPositions this vw vh) in
  (exists b', nth_error out (List.length pre) = Some b' /\
              startY b' = 0 /\ endY b' = e) /\
  snd (layoutY initialY (pre ++ [b])) = before /\
  map spanY (skipn (S (List.length pre)) out) =
    map spanY (fst (layoutY before post)) /\
  map spanY (firstn (List.length pre) out ++ skipn (S (List.length pre)) out) =
    map spanY (fst (layoutY initialY (pre ++ post))).
Proof.
  intros Hbars Hstep before out.
  assert (Hspan : map spanY out =
                  map spanY (fst (layoutY initialY pre)) ++
                  (0, e) :: map spanY (fst (layoutY before post))).
  { unfold out. rewrite computeBarPositions_spanY, Hbars, layoutY_app.
    cbn [fst]. rewrite layoutY_cons. fold before. unfold before at 1 2.
    rewrite Hstep. cbn [fst snd]. rewrite map_app. reflexivity. }
  assert (Hlen : List.length (map spanY (fst (layoutY initialY pre))) =
                 List.length pre)
    by now rewrite length_map, layoutY_length.
  repeat split.
  - destruct (nth_error out (List.length pre)) as [b'|] eqn:E.
    + exists b'. split; [reflexivity|].
      apply (map_nth_error spanY) in E. rewrite Hspan, <- Hlen in E.
      rewrite nth_error_at in E. now inversion E.
    + apply nth_error_None in E. unfold out in E.
      rewrite computeBarPositions_length, Hbars, length_app in E.
      simpl in E. lia.
  - rewrite layoutY_app. cbn [snd]. rewrite layoutY_cons. cbn [snd layoutY].
    fold before. unfold before at 1. now rewrite Hstep.
  - rewrite <- skipn_map, Hspan, <- Hlen. apply skipn_at.
  - rewrite map_app, <- skipn_map, <- firstn_map, Hspan, <- Hlen.
    rewrite firstn_at, skipn_at, layoutY_app. cbn [fst].
    now rewrite map_app.
Qed.

(** C1: for a list of [step] bars with values v1..vn, the vertical pass of
    [computeBarPositions] gives the i-th bar (from 0) [startY] = the sum of
    the values before it (0 for the first) and [endY] = the sum through its
    own value, and the running total after its turn is that [endY]. *)
Theorem step_bars_prefix_sums this viewportWidth viewportHeight :
  Forall (fun b => barType b = step) (bars this) ->
  let vs := map totalValue (bars this) in
  let out := bars (computeBarPositions this viewportWidth viewportHeight) in
  List.length out = List.length (bars this) /\
  forall i b, nth_error out i = Some b ->
    startY b = prefixSum (firstn i vs) /\
    endY b = prefixSum (firstn (S i) vs) /\
    runningTotal (snd (layoutY initialY (firstn (S i) (bars this)))) = endY b.
Proof.
  intros Hall vs out. split; [apply computeBarPositions_length|].
  intros i b Hi.
  assert (Hlt : (i < List.length (bars this))%nat).
  { rewrite <- (computeBarPositions_length this viewportWidth viewportHeight).
    apply nth_error_Some. fold out. now rewrite Hi. }
  apply (map_nth_error spanY) in Hi. unfold out in Hi.
  rewrite computeBarPositions_spanY in Hi.
  destruct (layoutY_steps (bars this) initialY Hall) as [Hspans _].
  rewrite Hspans in Hi.
  rewrite nth_error_map, nth_error_seq in Hi.
  apply Nat.ltb_lt in Hlt. rewrite Hlt in Hi.
  cbn [option_map plus runningTotal initialY] in Hi.
  inversion Hi as [[Hs He]]. fold vs. unfold prefixSum.
  repeat split.
  destruct (layoutY_steps (firstn (S i) (bars this)) initialY) as [_ Hrt].
  { now apply Forall_prefix. }
  rewrite Hrt. cbn [runningTotal initialY]. now rewrite <- firstn_map.
Qed.

(** C2: a [subtotal] or [total] bar gets startY = 0 and endY = the running
    total reached before it; its turn of the loop returns the state it was
    given, so the bars after it are laid out from that state and every
    other bar has the span it would have without it. *)
Theorem subtotal_total_keep_running_total this viewportWidth viewportHeight
    pre b post :
  bars this = pre ++ b :: post ->
  barType b = subtotal \/ barType b = total ->
  let before := snd (layoutY initialY pre) in
  let out := bars (computeBarPositions this viewportWidth viewportHeight) in
  stepY before b = (set_Y b 0 (runningTotal before), before) /\
  (exists b', nth_error out (List.length pre) = Some b' /\
              startY b' = 0 /\ endY b' = runningTotal before) /\
  snd (layoutY initialY (pre ++ [b])) = before /\
  map spanY (skipn (S (List.length pre)) out) =
    map spanY (fst (layoutY before post)) /\
  map spanY (firstn (List.length pre) out ++ skipn (S (List.length pre)) out) =
    map spanY (fst (layoutY initialY (pre ++ post))).
Proof.
  intros Hbars Hty before out.
  assert (Hstep : stepY before b = (set_Y b 0 (runningTotal before), before)).
  { unfold stepY. now destruct Hty as [-> | ->]. }
  split; [exact Hstep|].
  exact (neutral_bar this viewportWidth viewportHeight pre b post _ Hbars Hstep).
Qed.

(** C3: a [bar]-type bar gets startY = 0 and endY = its own totalValue,
    whatever the running total before it, and its turn of the loop returns
    the state it was given: the bars after it are laid out from that state
    and every other bar has the span it would have without it. *)
Theorem bar_span_independent this viewportWidth viewportHeight pre b post :
  bars this = pre ++ b :: post ->
  barType b = bar ->
  let before := snd (layoutY initialY pre) in
  let out := bars (computeBarPositions this viewportWidth viewportHeight) in
  (forall st, stepY st b = (set_Y b 0 (totalValue b), st)) /\
  (exists b', nth_error out (List.length pre) = Some b' /\
              startY b' = 0 /\ endY b' = totalValue b) /\
  snd (layoutY initialY (pre ++ [b])) = before /\
  map spanY (skipn (S (List.length pre)) out) =
    map spanY (fst (layoutY before post)) /\
  map spanY (firstn (List.length pre) out ++ skipn (S (List.length pre)) out) =
    map spanY (fst (layoutY initialY (pre ++ post))).
Proof.
  intros Hbars Hty before out.
  assert (Hstep : forall st, stepY st b = (set_Y b 0 (totalValue b), st)).
  { intros st. unfold stepY. now rewrite Hty. }
  split; [exact Hstep|].
  exact (neutral_bar this viewportWidth viewportHeight pre b post _ Hbars
           (Hstep _)).
Qed.

(** ** Horizontal packing *)

Lemma of_nat_S n : of_nat (S n) == of_nat n + 1.
Proof.
  unfold of_nat. rewrite Nat2Z.inj_succ, <- Z.add_1_r, inject_Z_plus.
  reflexivity.
Qed.

Lemma of_nat_pos n : (0 < n)%nat -> 1 <= of_nat n.
Proof.
  intros Hn. unfold of_nat. change 1 with (inject_Z 1).
  rewrite <- Zle_Qle. lia.
Qed.

Lemma layoutX_nth dx l : forall x i b,
  nth_error (layoutX x dx l) i = Some b ->
  xPosition b == x + of_nat i * dx.
Proof.
  induction l as [|a l IH]; intros x [|i] b Hi; simpl in Hi; try discriminate.
  - inversion Hi; subst. cbn. unfold of_nat. simpl. ring.
  - apply IH in Hi. rewrite Hi, of_nat_S. ring.
Qed.

(** In exact arithmetic, for a non-empty bar list, a positive viewport
    width and positive configured width W and gap G, with r = G/W, N the
    number of bars and A = viewport width - 50 - 20: the width is
    w = min(A / (N + (N-1)*r), 2*W), the gap g = w*r, the i-th bar (from 0)
    is at 50 + i*(w+g), w is at most 2*W and N*w + (N-1)*g is at most A.
    Rounding can break the last bound and the closed form of the
    positions; the pass in double precision is taken up below. *)
Lemma horizontal_packing_exact this viewportWidth viewportHeight :
  let s := chartSettings (formattingSettings this) in
  let N := of_nat (List.length (bars this)) in
  let W := barWidth s in
  let G := barGap s in
  let r := G / W in
  let A := viewportWidth - 50 - 20 in
  let after := computeBarPositions this viewportWidth viewportHeight in
  bars this <> [] -> 0 < viewportWidth -> 0 < W -> 0 < G ->
  exists w g,
    _computedBarWidth after = Some w /\
    _computedBarGap after = Some g /\
    w == Qmin (A / (N + (N - 1) * r)) (2 * W) /\
    g == w * r /\
    List.length (bars after) = List.length (bars this) /\
    (forall i b, nth_error (bars after) i = Some b ->
       xPosition b == 50 + of_nat i * (w + g)) /\
    w <= 2 * W /\
    N * w + (N - 1) * g <= A.
Proof.
  intros s N W G r A after Hne Hvw HW HG.
  exists (dynamicBarWidth s N viewportWidth), (dynamicBarGap s N viewportWidth).
  assert (Hr : 0 < r).
  { unfold r, Qdiv. apply Qmult_lt_0_compat; [assumption|].
    now apply Qinv_lt_0_compat. }
  assert (HN : 1 <= N).
  { apply of_nat_pos. destruct (bars this); [congruence | simpl; lia]. }
  assert (HU : 0 < totalUnits s N).
  { assert (0 <= (N - 1) * r) by (apply Qmult_le_0_compat; lra).
    unfold totalUnits, gapRatio. fold G W r. lra. }
  assert (Hw : dynamicBarWidth s N viewportWidth <= 2 * W).
  { unfold dynamicBarWidth. fold W. rewrite (Qmult_comm 2 W).
    apply Q.le_min_r. }
  repeat split; try reflexivity.
  - unfold dynamicBarWidth, totalUnits, gapRatio, availableWidth.
    fold G W r. rewrite (Qmult_comm W 2). reflexivity.
  - apply computeBarPositions_length.
  - intros i b Hi. unfold after, computeBarPositions in Hi. cbn [bars] in Hi.
    rewrite layoutY_layoutX in Hi. cbn [fst] in Hi.
    apply layoutX_nth in Hi. exact Hi.
  - exact Hw.
  - unfold dynamicBarGap, gapRatio. fold G W r.
    assert (Hle : dynamicBarWidth s N viewportWidth * totalUnits s N <= A).
    { apply (Qmult_le_r _ _ (/ totalUnits s N));
        [now apply Qinv_lt_0_compat|].
      rewrite <- Qmult_assoc, Qmult_inv_r, Qmult_1_r by lra.
      unfold dynamicBarWidth at 1. apply Q.le_min_l. }
    unfold totalUnits, gapRatio in Hle. fold G W r in Hle. lra.
Qed.

(** ** Horizontal packing in double precision *)

Module DoubleFacts.
Import Floats Double.
Local Open Scope float_scope.

Lemma SFcompare_antisym x y :
  SFcompare y x = option_map CompOpp (SFcompare x y).
Proof.
  destruct x as [sx|sx| |sx mx ex], y as [sy|sy| |sy my ey]; cbn;
    try reflexivity; try (destruct sx; reflexivity);
    try (destruct sy; reflexivity);
    try (destruct sx, sy; reflexivity).
  destruct sx, sy; cbn; try reflexivity;
    rewrite (Z.compare_antisym ex ey); destruct (ex ?= ey)%Z; cbn;
    try reflexivity;
    rewrite (ZC4 my mx);
    now destruct (Pos.compare_cont Eq mx my).
Qed.

Lemma ltb_antisym x y : (x <? y) = true -> (y <? x) = false.
Proof.
  rewrite !ltb_spec. unfold SFltb.
  rewrite (SFcompare_antisym (Prim2SF x) (Prim2SF y)).
  now destruct (SFcompare (Prim2SF x) (Prim2SF y)) as [[| |]|].
Qed.

Lemma ltb_irrefl x : (x <? x) = false.
Proof.
  destruct (x <? x) eqn:E; [|reflexivity].
  pose proof (ltb_antisym x x E). congruence.
Qed.

Lemma ltb_nan_r x : (x <? nan) = false.
Proof.
  rewrite ltb_spec. unfold SFltb.
  change (Prim2SF nan) with S754_nan.
  now destruct (Prim2SF x).
Qed.

Lemma min_not_above x y : (y <? min x y) = false.
Proof.
  unfold min.
  destruct (is_nan x || is_nan y); [apply ltb_nan_r|].
  destruct (x <? y) eqn:Hxy; [now apply ltb_antisym|].
  destruct (y <? x) eqn:Hyx; [apply ltb_irrefl|].
  destruct (is_zero x && get_sign y); [apply ltb_irrefl | exact Hyx].
Qed.

Lemma layoutX_bars {A} dx (bars : list A) : forall x,
  map fst (layoutX x dx bars) = bars.
Proof.
  induction bars as [|b rest IH]; intros x; [reflexivity|].
  cbn [layoutX map fst]. now rewrite IH.
Qed.

Lemma layoutX_next {A} dx (bars : list A) : forall x i b1 x1 b2 x2,
  nth_error (layoutX x dx bars) i = Some (b1, x1) ->
  nth_error (layoutX x dx bars) (S i) = Some (b2, x2) ->
  x2 = x1 + dx.
Proof.
  induction bars as [|b rest IH]; intros x i b1 x1 b2 x2 H1 H2;
    [destruct i; discriminate|].
  destruct i as [|i].
  - cbn in H1. inversion H1; subst. destruct rest as [|c rest];
      [discriminate|]. cbn in H2. now inversion H2.
  - cbn [layoutX nth_error] in H1, H2. exact (IH _ _ _ _ _ _ H1 H2).
Qed.

(** C4 (as the code has it): for a non-empty bar list of length N and
    configured width W and gap G with r = G/W, the horizontal pass
    computes, each operation rounded to a double, the width
    w = min(A / (N + (N-1)*r), 2*W) and the gap g = w*r, where A is the
    viewport width minus the margins 50 and 20; it gives the first bar the
    xPosition 50 and every later bar the xPosition of the bar before it
    plus (w+g); and w never exceeds 2*W.  (That the bars and gaps fit in A
    holds in exact arithmetic only.) *)
Theorem horizontal_packing_double {A}
    (barWidth barGap viewportWidth : float) (bars : list A) :
  bars <> [] ->
  let N := of_nat (List.length bars) in
  let r := barGap / barWidth in
  let available := viewportWidth - 50 - 20 in
  let w := dynamicBarWidth barWidth barGap N viewportWidth in
  let g := dynamicBarGap barWidth barGap N viewportWidth in
  let placed := layoutX margin_left (w + g) bars in
  w = min (available / (N + (N - 1) * r)) (barWidth * 2) /\
  g = w * r /\
  map fst placed = bars /\
  (exists first, nth_error placed 0 = Some (first, 50)) /\
  (forall i b1 x1 b2 x2,
     nth_error placed i = Some (b1, x1) ->
     nth_error placed (S i) = Some (b2, x2) ->
     x2 = x1 + (w + g)) /\
  (barWidth * 2 <? w) = false.
Proof.
  intros Hne N r available w g placed.
  repeat split.
  - apply layoutX_bars.
  - destruct bars as [|first rest]; [congruence|]. now exists first.
  - intros i b1 x1 b2 x2. apply layoutX_next.
  - apply min_not_above.
Qed.

Lemma horizontal_packing_double_witness :
  [tt; tt; tt] <> [] /\
  (dynamicBarWidth 40 10 (of_nat 3) 79 = 0x1.4924924924925p+1 /\
   (40 * 2 <? dynamicBarWidth 40 10 (of_nat 3) 79) = false).
Proof.
  assert (Hne : [tt; tt; tt] <> []) by discriminate.
  split; [exact Hne|]. split; [vm_compute; reflexivity|].
  exact (proj2 (proj2 (proj2 (proj2 (proj2
    (horizontal_packing_double 40 10 79 [tt; tt; tt] Hne)))))).
Defined.

(** C4 as stated fails in the code's arithmetic.  With the default width 40
    and gap 10, three bars in a viewport 79 wide get a width and a gap with
    N*w + (N-1)*g above A = 9, computed in doubles and also as the exact
    sum of the two doubles; and in a viewport 74 wide the third bar's
    xPosition is not 50 + 2*(w+g). *)
Lemma span_exceeds_available_width :
  (availableWidth 79
     <? of_nat 3 * dynamicBarWidth 40 10 (of_nat 3) 79
        + (of_nat 3 - 1) * dynamicBarGap 40 10 (of_nat 3) 79) = true /\
  (exists qw qg,
     toQ (dynamicBarWidth 40 10 (of_nat 3) 79) = Some qw /\
     toQ (dynamicBarGap 40 10 (of_nat 3) 79) = Some qg /\
     (79 - 50 - 20 < 3 * qw + (3 - 1) * qg)%Q) /\
  (exists x2,
     nth_error
       (map snd
          (layoutX margin_left
             (dynamicBarWidth 40 10 (of_nat 3) 74
              + dynamicBarGap 40 10 (of_nat 3) 74) [tt; tt; tt])) 2 = Some x2 /\
     (x2 =? 50 + 2 * (dynamicBarWidth 40 10 (of_nat 3) 74
                      + dynamicBarGap 40 10 (of_nat 3) 74)) = false).
Proof.
  split; [vm_compute; reflexivity|]. split.
  - do 2 eexists. split; [vm_compute; reflexivity|].
    split; [vm_compute; reflexivity|]. vm_compute. reflexivity.
  - eexists. split; [vm_compute; reflexivity|]. vm_compute. reflexivity.
Qed.

End DoubleFacts.

(** ** Value formatting *)

(** C5 (as the code has it): [formatValue] maps 0 to "0", 1500 to "1.50K",
    2000000 to "2M", -950 to "-950" and 1234567890 to "1.2B". *)
Theorem formatValue_examples `{Builtins} :
  formatValue 0 = "0"%string /\
  formatValue 1500 = "1.50K"%string /\
  formatValue 2000000 = "2M"%string /\
  formatValue (-950) = "-950"%string /\
  formatValue 1234567890 = "1.2B"%string.
Proof. repeat split; vm_compute; reflexivity. Qed.

(** C5 as stated fails: 1500 is formatted with two decimals. *)
Lemma formatValue_1500 :
  formatValue (H := Reference.builtins) 1500 = "1.50K"%string /\
  formatValue (H := Reference.builtins) 1500 <> "1.5K"%string.
Proof. split; [vm_compute; reflexivity | vm_compute; discriminate]. Qed.

(** ** Array.prototype.sort, by a numeric key *)

Section SortByKey.
Context {A : Type} (key : A -> Q).

Local Abbreviation compareFn := (fun a b : A => key a - key b).

Lemma moves_past x y :
  Qlt_bool 0 (compareFn x y) = true <-> key y < key x.
Proof.
  unfold Qlt_bool. rewrite negb_true_iff.
  destruct (Qle_bool (key x - key y) 0) eqn:E.
  - apply Qle_bool_iff in E. split; [discriminate | lra].
  - split; [intros _ | reflexivity].
    destruct (Qlt_le_dec (key y) (key x)) as [Hlt | Hle]; [exact Hlt|].
    assert (Hc : Qle_bool (key x - key y) 0 = true)
      by (apply Qle_bool_iff; lra).
    congruence.
Qed.

Lemma insert_length x l :
  List.length (insert compareFn x l) = S (List.length l).
Proof.
  induction l as [|y l IH]; simpl; [reflexivity|].
  destruct (Qlt_bool 0 (compareFn x y)); simpl; [now rewrite IH | reflexivity].
Qed.

Lemma sort_length l : List.length (sort compareFn l) = List.length l.
Proof.
  induction l as [|x l IH]; simpl; [reflexivity|].
  now rewrite insert_length, IH.
Qed.

Lemma insert_perm x l : Permutation (insert compareFn x l) (x :: l).
Proof.
  induction l as [|y l IH]; simpl; [reflexivity|].
  destruct (Qlt_bool 0 (compareFn x y)); [|reflexivity].
  rewrite IH. apply perm_swap.
Qed.

Lemma sort_perm l : Permutation (sort compareFn l) l.
Proof.
  induction l as [|x l IH]; simpl; [reflexivity|].
  now rewrite insert_perm, IH.
Qed.

Local Abbreviation le := (fun a b : A => key a <= key b).

Lemma insert_sorted x l :
  StronglySorted le l -> StronglySorted le (insert compareFn x l).
Proof.
  induction 1 as [|y l Hl IH Hy]; simpl.
  - repeat constructor.
  - destruct (Qlt_bool 0 (compareFn x y)) eqn:E.
    + apply moves_past in E. constructor; [exact IH|].
      eapply Permutation_Forall; [symmetry; apply insert_perm|].
      constructor; [lra | exact Hy].
    + assert (Hxy : key x <= key y).
      { destruct (Qlt_le_dec (key y) (key x)) as [Hlt | Hle]; [|exact Hle].
        apply moves_past in Hlt. congruence. }
      constructor; [now constructor|].
      constructor; [exact Hxy|].
      eapply Forall_impl; [|exact Hy]. cbv beta. intros z Hz. lra.
Qed.

Lemma sort_sorted l : StronglySorted le (sort compareFn l).
Proof.
  induction l as [|x l IH]; simpl; [constructor | now apply insert_sorted].
Qed.

(** Stability: an inserted element only moves past smaller keys, so
    among the elements of one key the order of arrival is kept. *)
Lemma insert_stable k x l :
  filter (fun a => Qeq_bool (key a) k) (insert compareFn x l) =
  filter (fun a => Qeq_bool (key a) k) (x :: l).
Proof.
  induction l as [|y l IH]; [reflexivity|].
  cbn [insert]. destruct (Qlt_bool 0 (compareFn x y)) eqn:E; [|reflexivity].
  apply moves_past in E. cbn [filter] in *. rewrite IH.
  destruct (Qeq_bool (key x) k) eqn:Ex; [|reflexivity].
  destruct (Qeq_bool (key y) k) eqn:Ey; [|reflexivity].
  apply Qeq_bool_iff in Ex, Ey. lra.
Qed.

Lemma sort_stable k l :
  filter (fun a => Qeq_bool (key a) k) (sort compareFn l) =
  filter (fun a => Qeq_bool (key a) k) l.
Proof.
  induction l as [|x l IH]; [reflexivity|].
  cbn [sort fold_right]. fold (sort compareFn l).
  rewrite insert_stable. cbn [filter]. now rewrite IH.
Qed.

End SortByKey.

(** ** The row parser *)

Section ParserProperties.
Context `{Builtins}.

Lemma parseRows_nth this categoryColumn barTypeColumn rest vals i :
  (i < List.length (values categoryColumn))%nat ->
  nth_error (parseRows this (categoryColumn :: barTypeColumn :: rest) vals) i =
  Some (parseRow (host this)
          (defaultBarColor (colorSettings (formattingSettings this)))
          categoryColumn barTypeColumn (hd_error rest)
          (match vals with Some l => l | None => [] end) i).
Proof.
  intros Hi. cbn [parseRows]. rewrite nth_error_map, nth_error_seq.
  apply Nat.ltb_lt in Hi. rewrite Hi. now destruct rest.
Qed.

Lemma parseRows_length this categoryColumn barTypeColumn rest vals :
  List.length (parseRows this (categoryColumn :: barTypeColumn :: rest) vals) =
  List.length (values categoryColumn).
Proof. cbn [parseRows]. now rewrite length_map, length_seq. Qed.

Lemma parseData_sorted_rows this dataView c categoryColumn barTypeColumn rest :
  categorical dataView = Some c ->
  categories c = Some (categoryColumn :: barTypeColumn :: rest) ->
  parseData this dataView =
  sort (fun a b => sequence a - sequence b)
       (parseRows this (categoryColumn :: barTypeColumn :: rest)
          (categorical_values c)).
Proof. intros Hc Hcats. unfold parseData. now rewrite Hc, Hcats. Qed.

(** C6: on a table with at least two categorical columns whose first
    column has n rows, [parseData] returns n bars, one per row, in
    ascending order of [sequence]; the bars of equal [sequence] come in the
    order of their rows (row i yields the i-th bar pushed). *)
Theorem parseData_stable_sort this dataView c categoryColumn barTypeColumn
    rest :
  categorical dataView = Some c ->
  categories c = Some (categoryColumn :: barTypeColumn :: rest) ->
  let n := List.length (values categoryColumn) in
  let rows :=
    parseRows this (categoryColumn :: barTypeColumn :: rest)
      (categorical_values c) in
  let out := parseData this dataView in
  List.length out = n /\
  StronglySorted bySequence out /\
  Permutation out rows /\
  (forall k, withSequence k out = withSequence k rows) /\
  List.length rows = n /\
  forall i, (i < n)%nat ->
    nth_error rows i =
    Some (parseRow (host this)
            (defaultBarColor (colorSettings (formattingSettings this)))
            categoryColumn barTypeColumn (hd_error rest)
            (match categorical_values c with Some l => l | None => [] end) i).
Proof.
  intros Hc Hcats n rows out.
  unfold out. rewrite (parseData_sorted_rows _ _ _ _ _ _ Hc Hcats).
  fold rows. repeat split.
  - rewrite (sort_length sequence). apply parseRows_length.
  - apply (sort_sorted sequence).
  - apply (sort_perm sequence).
  - intros k. apply (sort_stable sequence).
  - apply parseRows_length.
  - intros i Hi. now apply parseRows_nth.
Qed.

(** What the loop over the value columns collects. *)
Lemma collectStacked_values host defaultColor cols i : forall v acc tot,
  map value (fst (collectStacked host defaultColor cols i v acc tot)) =
    map value acc ++ filter nonzero (measureValues cols i) /\
  snd (collectStacked host defaultColor cols i v acc tot) =
    fold_left Qplus (filter nonzero (measureValues cols i)) tot.
Proof.
  induction cols as [|c cols IH]; intros v acc tot.
  - cbn. now rewrite app_nil_r.
  - cbn [collectStacked measureValues map filter]. cbv zeta.
    fold (nonzero (or_number (ToNumber (index (values c) i)) 0)).
    fold (measureValues cols i).
    destruct (nonzero (or_number (ToNumber (index (values c) i)) 0)).
    + cbn [fold_left].
      match goal with
      | |- context [collectStacked _ _ _ _ (S v) ?a ?t] =>
          destruct (IH (S v) a t) as [IH1 IH2]
      end.
      split.
      * rewrite IH1, map_app, <- app_assoc. reflexivity.
      * rewrite IH2. reflexivity.
    + apply IH.
Qed.

Lemma parseRow_collected host defaultColor categoryColumn barTypeColumn
    sequenceColumn valueColumns i :
  let b := parseRow host defaultColor categoryColumn barTypeColumn
             sequenceColumn valueColumns i in
  stackedValues b =
    fst (collectStacked host defaultColor valueColumns i 0 [] 0) /\
  totalValue b =
    snd (collectStacked host defaultColor valueColumns i 0 [] 0).
Proof.
  unfold parseRow.
  destruct (collectStacked host defaultColor valueColumns i 0 [] 0).
  split; reflexivity.
Qed.

Lemma measureValues_without cols1 c cols2 i :
  or_number (ToNumber (index (values c) i)) 0 == 0 ->
  filter nonzero (measureValues (cols1 ++ c :: cols2) i) =
  filter nonzero (measureValues (cols1 ++ cols2) i).
Proof.
  intros Hz. unfold measureValues. rewrite !map_app, !filter_app.
  cbn [map filter]. unfold nonzero at 2.
  apply Qeq_bool_iff in Hz. now rewrite Hz.
Qed.

(** C7: in the bar of a row, [stackedValues] holds the values of the value
    columns that are not zero, as read and in column order, and no zero;
    [totalValue] is the sum of the values kept; and the row parsed without
    a column that reads zero has the same values and the same total. *)
Theorem zero_measures_dropped host defaultColor categoryColumn barTypeColumn
    sequenceColumn valueColumns i :
  let parse := parseRow host defaultColor categoryColumn barTypeColumn
                 sequenceColumn in
  let b := parse valueColumns i in
  map value (stackedValues b) = filter nonzero (measureValues valueColumns i) /\
  Forall (fun sv => ~ value sv == 0) (stackedValues b) /\
  totalValue b = prefixSum (map value (stackedValues b)) /\
  forall cols1 c cols2,
    valueColumns = cols1 ++ c :: cols2 ->
    or_number (ToNumber (index (values c) i)) 0 == 0 ->
    map value (stackedValues (parse (cols1 ++ cols2) i)) =
      map value (stackedValues b) /\
    totalValue (parse (cols1 ++ cols2) i) = totalValue b.
Proof.
  intros parse b.
  destruct (parseRow_collected host defaultColor categoryColumn barTypeColumn
              sequenceColumn valueColumns i) as [Hs Ht].
  destruct (collectStacked_values host defaultColor valueColumns i 0 [] 0)
    as [Hv Hsum].
  fold parse b in Hs, Ht.
  assert (Hvals : map value (stackedValues b) =
                  filter nonzero (measureValues valueColumns i))
    by (rewrite Hs; exact Hv).
  repeat split.
  - exact Hvals.
  - assert (Hnz : Forall (fun x => ~ x == 0) (map value (stackedValues b))).
    { rewrite Hvals. apply Forall_forall. intros x Hx.
      apply filter_In in Hx. destruct Hx as [_ Hx]. unfold nonzero in Hx.
      apply negb_true_iff in Hx. now apply Qeq_bool_neq. }
    rewrite Forall_map in Hnz. exact Hnz.
  - rewrite Ht, Hsum, Hvals. reflexivity.
  - destruct (parseRow_collected host defaultColor categoryColumn
                barTypeColumn sequenceColumn (cols1 ++ cols2) i) as [Hs' _].
    fold parse in Hs'. rewrite Hs', Hvals.
    destruct (collectStacked_values host defaultColor (cols1 ++ cols2) i 0 [] 0)
      as [Hv' _].
    rewrite Hv'. cbn [map app]. subst valueColumns.
    symmetry. now apply measureValues_without.
  - destruct (parseRow_collected host defaultColor categoryColumn
                barTypeColumn sequenceColumn (cols1 ++ cols2) i) as [_ Ht'].
    fold parse in Ht'. rewrite Ht', Ht, Hsum.
    destruct (collectStacked_values host defaultColor (cols1 ++ cols2) i 0 [] 0)
      as [_ Hsum'].
    rewrite Hsum'. subst valueColumns.
    now rewrite measureValues_without.
Qed.

Lemma parseRow_sequence host defaultColor categoryColumn barTypeColumn
    sequenceColumn valueColumns i :
  sequence (parseRow host defaultColor categoryColumn barTypeColumn
              sequenceColumn valueColumns i) =
  match sequenceColumn with
  | Some c => or_number (ToNumber (index (values c) i)) (of_nat i)
  | None => of_nat i
  end.
Proof.
  unfold parseRow.
  now destruct (collectStacked host defaultColor valueColumns i 0 [] 0).
Qed.

(** C10: with a sequence column present, the parsed [sequence] of row i
    is i when the cell is missing, when it is non-numeric and also when it
    reads exactly 0; any other number is kept.  So a row tagged 0 need not
    sort first: of the rows tagged 1, 2 and 0, the last stays last. *)
Theorem zero_sequence_is_row_index :
  (forall host defaultColor categoryColumn barTypeColumn c valueColumns i,
     let cell := index (values c) i in
     let b := parseRow host defaultColor categoryColumn barTypeColumn (Some c)
                valueColumns i in
     (cell = PUndefined -> sequence b = of_nat i) /\
     (ToNumber cell = None -> sequence b = of_nat i) /\
     (forall q, ToNumber cell = Some q -> q == 0 -> sequence b = of_nat i) /\
     (forall q, ToNumber cell = Some q -> ~ q == 0 -> sequence b = q)) /\
  (forall this,
     map (fun b => (category b, sequence b))
       (parseData this
          {| categorical := Some
               {| categories := Some
                    [Reference.column "Category"
                       [PString "a"; PString "b"; PString "zero"];
                     Reference.column "Type"
                       [PString "step"; PString "step"; PString "step"];
                     Reference.column "Sequence"
                       [PNumber 1; PNumber 2; PNumber 0]];
                  categorical_values := None |} |}) =
     [("a"%string, 1); ("b"%string, 2); ("zero"%string, 2)]).
Proof.
  split.
  - intros host defaultColor categoryColumn barTypeColumn c valueColumns i
      cell b.
    unfold b. rewrite parseRow_sequence. fold cell.
    repeat split.
    + intros ->. reflexivity.
    + intros ->. reflexivity.
    + intros q -> Hq. cbn. apply Qeq_bool_iff in Hq. now rewrite Hq.
    + intros q -> Hq. cbn. destruct (Qeq_bool q 0) eqn:E; [|reflexivity].
      apply Qeq_bool_iff in E. contradiction.
  - intros this. vm_compute. reflexivity.
Qed.

End ParserProperties.

(** ** The update cycle *)

Section UpdateProperties.
Context `{Builtins}.

Lemma chartNodes_not_placeholder this w h n :
  chartNodes this w h <> [n].
Proof. unfold chartNodes. cbn [app]. discriminate. Qed.

Lemma renderChart_childNodes this w h :
  childNodes_of (svgContainer (renderChart this w h)) = chartNodes this w h.
Proof. reflexivity. Qed.

Lemma renderEmptyState_childNodes this w h :
  childNodes_of (svgContainer (renderEmptyState this w h)) =
  [emptyStateNode w h].
Proof. reflexivity. Qed.

Lemma length_zero_nil {A} (l : list A) : List.length l = 0%nat <-> l = [].
Proof. destruct l; simpl; split; congruence. Qed.

Lemma parseData_nil_iff this options dataView :
  firstDataView options = Some dataView ->
  categorical dataView <> None ->
  parseData this dataView = [] <->
  fewerThanTwoCategories options \/ zeroRows options.
Proof.
  intros Hdv Hc.
  unfold fewerThanTwoCategories, zeroRows, rowCount, categoryColumns,
    categoricalOf, parseData.
  rewrite Hdv. destruct (categorical dataView) as [c|]; [clear Hc|congruence].
  destruct (categories c) as [cats|]; [|cbn; intuition lia].
  destruct cats as [|c0 [|c1 rest]]; [cbn; intuition lia ..|].
  cbn [List.length Nat.ltb Nat.leb].
  rewrite <- length_zero_nil, (sort_length sequence), parseRows_length.
  intuition lia.
Qed.

Lemma update_absent this options :
  inputAbsent options ->
  update this options =
  renderEmptyState
    (set_formattingSettings this
       (populateFormattingSettingsModel this (firstDataView options)))
    (width (viewport options)) (height (viewport options)).
Proof.
  unfold inputAbsent, categoricalOf, update.
  destruct (firstDataView options) as [dataView|]; [|reflexivity].
  now intros ->.
Qed.

Lemma update_present this options dataView :
  firstDataView options = Some dataView ->
  categorical dataView <> None ->
  let settled :=
    set_formattingSettings this
      (populateFormattingSettingsModel this (firstDataView options)) in
  let parsed := set_bars settled (parseData settled dataView) in
  update this options =
  if (List.length (parseData settled dataView) =? 0)%nat
  then renderEmptyState parsed
         (width (viewport options)) (height (viewport options))
  else renderChart
         (computeBarPositions parsed
            (width (viewport options)) (height (viewport options)))
         (width (viewport options)) (height (viewport options)).
Proof.
  intros Hdv Hc. unfold update. rewrite Hdv.
  destruct (categorical dataView); [reflexivity | congruence].
Qed.

(** C8: [update] leaves the placeholder as the only content exactly when
    the input is absent, has fewer than two categorical columns or has no
    rows.  In each of these cases [parseData] returns the empty list on
    the data view, if there is one, and [update] is [renderEmptyState]:
    at once on absent input, after parsing to no bars otherwise, and never
    through [computeBarPositions] or [renderChart]. *)
Theorem empty_state_iff_no_data this options :
  let w := width (viewport options) in
  let h := height (viewport options) in
  let settled :=
    set_formattingSettings this
      (populateFormattingSettingsModel this (firstDataView options)) in
  let after := update this options in
  (childNodes_of (svgContainer after) = [emptyStateNode w h] <->
   inputAbsent options \/ fewerThanTwoCategories options \/ zeroRows options) /\
  (inputAbsent options -> after = renderEmptyState settled w h) /\
  (forall dataView,
     firstDataView options = Some dataView ->
     inputAbsent options \/ fewerThanTwoCategories options \/ zeroRows options ->
     parseData settled dataView = []) /\
  (forall dataView,
     firstDataView options = Some dataView ->
     categorical dataView <> None ->
     fewerThanTwoCategories options \/ zeroRows options ->
     parseData settled dataView = [] /\
     after = renderEmptyState (set_bars settled []) w h).
Proof.
  intros w h settled after.
  assert (Hpresent : forall dataView,
            firstDataView options = Some dataView ->
            categorical dataView <> None ->
            fewerThanTwoCategories options \/ zeroRows options ->
            parseData settled dataView = [] /\
            after = renderEmptyState (set_bars settled []) w h).
  { intros dataView Hdv Hc Hno.
    apply (parseData_nil_iff settled _ _ Hdv Hc) in Hno.
    split; [exact Hno|].
    unfold after. rewrite (update_present _ _ _ Hdv Hc). fold settled w h.
    now rewrite Hno. }
  split; [|split; [apply update_absent | split; [|exact Hpresent]]]; cycle 1.
  { intros dataView Hdv [Habsent | Hno].
    - unfold inputAbsent, categoricalOf in Habsent. rewrite Hdv in Habsent.
      unfold parseData. now rewrite Habsent.
    - destruct (categorical dataView) as [c|] eqn:Hc;
        [|unfold parseData; now rewrite Hc].
      apply (Hpresent dataView Hdv); [congruence | exact Hno]. }
  split.
  - intros Hshown.
    destruct (firstDataView options) as [dataView|] eqn:Hdv;
      [|left; unfold inputAbsent, categoricalOf; now rewrite Hdv].
    destruct (categorical dataView) as [c|] eqn:Hc;
      [|left; unfold inputAbsent, categoricalOf; now rewrite Hdv].
    right. apply (parseData_nil_iff settled _ _ Hdv); [congruence|].
    unfold after in Hshown.
    rewrite (update_present this options dataView) in Hshown
      by (rewrite ?Hdv; congruence).
    rewrite Hdv in Hshown. fold settled w h in Hshown.
    destruct (parseData settled dataView) as [|b l]; [reflexivity|].
    cbn [List.length Nat.eqb] in Hshown.
    rewrite renderChart_childNodes in Hshown.
    now apply chartNodes_not_placeholder in Hshown.
  - intros [Habsent | Hno].
    + unfold after. now rewrite update_absent.
    + destruct (firstDataView options) as [dataView|] eqn:Hdv;
        [|unfold after; rewrite update_absent; [reflexivity|];
          unfold inputAbsent, categoricalOf; now rewrite Hdv].
      destruct (categorical dataView) as [c|] eqn:Hc;
        [|unfold after; rewrite update_absent; [reflexivity|];
          unfold inputAbsent, categoricalOf; now rewrite Hdv].
      destruct (Hpresent dataView eq_refl) as [_ ->]; [congruence|exact Hno|].
      reflexivity.
Qed.

(** The example of the specification, end to end: the bars of the rows
    Start 100 (step), Add 50 (step), Subtotal (subtotal) and Bar 30 (bar)
    end at 100, 150, 150 and 30, the subtotal and the bar starting at 0. *)
Theorem update_running_totals this w h :
  map spanY
    (bars (update this
             {| dataViews := Some [Examples.specTable];
                viewport := {| width := w; height := h |} |})) =
  [(0, 100); (100, 150); (0, 150); (0, 30)].
Proof. vm_compute. reflexivity. Qed.

End UpdateProperties.

(** ** The separator *)

Lemma is_bar_iff b : is_bar b = true <-> barType b = bar.
Proof. unfold is_bar. destruct (barType b); simpl; split; congruence. Qed.

Lemma Qlt_bool_iff a b : Qlt_bool a b = true <-> a < b.
Proof.
  unfold Qlt_bool. rewrite negb_true_iff. split.
  - intros E. apply Qnot_le_lt. intros Hle.
    apply Qle_bool_iff in Hle. congruence.
  - intros Hlt. destruct (Qle_bool b a) eqn:E; [|reflexivity].
    apply Qle_bool_iff in E. lra.
Qed.

Lemma boundaryAt_cons p l i c :
  boundaryAt (p :: l) i c <->
  (i = 1%nat /\ nth_error l 0 = Some c /\ barType p <> bar /\ barType c = bar) \/
  (exists i', i = S i' /\ boundaryAt l i' c).
Proof.
  unfold boundaryAt. split.
  - intros (j & q & -> & Hj & Hi & Hq & Hc). destruct j as [|j].
    + left. cbn in Hj, Hi. inversion Hj; subst. auto.
    + right. exists (S j). split; [reflexivity|]. exists j, q. auto.
  - intros [(-> & Hc0 & Hp & Hc) | (i' & -> & j & q & -> & Hj & Hi & Hq & Hc)].
    + exists 0%nat, p. auto.
    + exists (S j), q. auto.
Qed.

Lemma findSeparatorX_spec g : forall l prev,
  (exists i b, firstBoundary (inView prev l) i b /\
               findSeparatorX g prev l = xPosition b - g / 2) \/
  ((forall i b, ~ boundaryAt (inView prev l) i b) /\
   findSeparatorX g prev l = - (1)).
Proof.
  induction l as [|b rest IH]; intros prev.
  - right. split; [|reflexivity].
    intros i c (j & q & -> & Hj & Hi & _).
    destruct prev as [p|]; cbn in Hi; [destruct j|]; discriminate.
  - cbn [findSeparatorX].
    destruct (is_bar b &&
              match prev with Some p => negb (is_bar p) | None => false end)
      eqn:Hcond.
    + left. apply andb_true_iff in Hcond. destruct Hcond as [Hb Hp].
      destruct prev as [p|]; [|discriminate].
      apply is_bar_iff in Hb. apply negb_true_iff in Hp.
      assert (Hpn : barType p <> bar)
        by (intros Hpb; apply is_bar_iff in Hpb; congruence).
      exists 1%nat, b. split; [|reflexivity]. split.
      * exists 0%nat, p. cbn. auto.
      * intros j c Hj (j' & q & -> & _). lia.
    + assert (Hnot1 : forall p c, prev = Some p -> nth_error (b :: rest) 0 = Some c ->
                        barType p <> bar -> barType c = bar -> False).
      { intros p c -> Hc Hp Hcb. cbn in Hc. inversion Hc; subst.
        apply is_bar_iff in Hcb. rewrite Hcb in Hcond. cbn in Hcond.
        apply negb_false_iff, is_bar_iff in Hcond. contradiction. }
      destruct (IH (Some b)) as [(i & c & [Hb Hmin] & Hx) | [Hnone Hx]];
        cbn [inView] in *.
      * left. destruct prev as [p|]; cbn [inView].
        -- exists (S i), c. split; [|exact Hx]. split.
           ++ apply boundaryAt_cons. right. eauto.
           ++ intros j c' Hj Hbj. apply boundaryAt_cons in Hbj.
              destruct Hbj as [(-> & Hc0 & Hp & Hc') | (j' & -> & Hbj)].
              ** eapply Hnot1; eauto.
              ** apply (Hmin j' c'); [lia | exact Hbj].
        -- exists i, c. split; [split; assumption | exact Hx].
      * right. split; [|exact Hx]. destruct prev as [p|]; cbn [inView].
        -- intros i c Hbi. apply boundaryAt_cons in Hbi.
           destruct Hbi as [(-> & Hc0 & Hp & Hc') | (i' & -> & Hbi)].
           ++ eapply Hnot1; eauto.
           ++ exact (Hnone i' c Hbi).
        -- exact Hnone.
Qed.

Lemma firstBoundary_unique l i b i' b' :
  firstBoundary l i b -> firstBoundary l i' b' -> b = b'.
Proof.
  intros [Hb Hmin] [Hb' Hmin'].
  destruct (Nat.lt_trichotomy i i') as [Hlt | [-> | Hgt]].
  - now destruct (Hmin' i b Hlt).
  - destruct Hb as (_ & _ & _ & _ & Hi & _).
    destruct Hb' as (_ & _ & _ & _ & Hi' & _). congruence.
  - now destruct (Hmin i' b' Hgt).
Qed.

Section SeparatorProperties.
Context `{Builtins}.

Lemma connectors_no_separator colors w ys l :
  filter isSeparator (connectorNodes colors w ys l) = [].
Proof.
  induction l as [|current rest IH]; [reflexivity|].
  destruct rest as [|next rest]; [reflexivity|].
  change (connectorNodes colors w ys (current :: next :: rest)) with
    ((if is_step current && is_step next
      then [connectorNode colors w ys current next] else []) ++
     connectorNodes colors w ys (next :: rest)).
  rewrite filter_app, IH. now destruct (is_step current && is_step next).
Qed.

Lemma groups_no_separator chart colors w ys l :
  filter isSeparator (map (barGroupNode chart colors w ys) l) = [].
Proof.
  induction l as [|b l IH]; [reflexivity|].
  cbn [map filter]. rewrite IH. unfold barGroupNode.
  now destruct (barType b).
Qed.

Lemma labels_no_separator axis w h l :
  filter isSeparator (map (axisLabelNode axis w h) l) = [].
Proof.
  induction l as [|b l IH]; [reflexivity|].
  cbn [map filter]. now rewrite IH.
Qed.

Lemma separatorNodes_kept colors g h l :
  filter isSeparator (separatorNodes colors g h l) =
  separatorNodes colors g h l.
Proof.
  unfold separatorNodes.
  now destruct (Qlt_bool 0 (findSeparatorX g None l)).
Qed.

(** The separators among the nodes of the chart are what the separator
    step drew. *)
Lemma chartNodes_separators this w h :
  filter isSeparator (chartNodes this w h) =
  separatorNodes (colorSettings (formattingSettings this))
    (or_number (_computedBarGap this)
       (barGap (chartSettings (formattingSettings this))))
    h (bars this).
Proof.
  unfold chartNodes. rewrite !filter_app, separatorNodes_kept.
  rewrite groups_no_separator.
  replace (filter isSeparator
             (if showConnectors (chartSettings (formattingSettings this))
              then connectorNodes _ _ _ (bars this) else [])) with
    (@nil SvgNode)
    by (destruct (showConnectors _);
        [now rewrite connectors_no_separator | reflexivity]).
  replace (filter isSeparator
             (if showXAxis (axisSettings (formattingSettings this))
              then map _ (bars this) else [])) with (@nil SvgNode)
    by (destruct (showXAxis _);
        [now rewrite labels_no_separator | reflexivity]).
  cbn [filter app]. now rewrite app_nil_r.
Qed.

(** What [renderChart] draws for a separator, by what the search finds. *)
Lemma separators_first this width height i b :
  firstBoundary (bars this) i b ->
  let gap :=
    or_number (_computedBarGap this)
      (barGap (chartSettings (formattingSettings this))) in
  filter isSeparator
    (childNodes_of (svgContainer (renderChart this width height))) =
  if Qlt_bool 0 (xPosition b - gap / 2)
  then [separatorNode (colorSettings (formattingSettings this))
          (xPosition b - gap / 2) height]
  else [].
Proof.
  intros Hb gap.
  rewrite renderChart_childNodes, chartNodes_separators. fold gap.
  unfold separatorNodes.
  destruct (findSeparatorX_spec gap (bars this) None)
    as [(i0 & b0 & Hb0 & Hx) | [Hnone _]]; cbn [inView] in *.
  - rewrite (firstBoundary_unique _ _ _ _ _ Hb Hb0). now rewrite <- Hx.
  - destruct Hb as [Hb _]. now destruct (Hnone i b).
Qed.

Lemma separators_none this width height :
  (forall i b, ~ boundaryAt (bars this) i b) ->
  filter isSeparator
    (childNodes_of (svgContainer (renderChart this width height))) = [].
Proof.
  intros Hno.
  rewrite renderChart_childNodes, chartNodes_separators.
  unfold separatorNodes.
  destruct (findSeparatorX_spec
              (or_number (_computedBarGap this)
                 (barGap (chartSettings (formattingSettings this))))
              (bars this) None)
    as [(i0 & b0 & [Hb0 _] & _) | [_ Hx]]; cbn [inView] in *.
  - now destruct (Hno i0 b0).
  - now rewrite Hx.
Qed.

(** Among the boundaries there is a first one. *)
Lemma first_boundary_exists l :
  (exists i b, boundaryAt l i b) <-> (exists i b, firstBoundary l i b).
Proof.
  split.
  - intros (i & b & Hb).
    destruct (findSeparatorX_spec 0 l None)
      as [(i0 & b0 & Hb0 & _) | [Hnone _]]; cbn [inView] in *; [eauto|].
    now destruct (Hnone i b).
  - intros (i & b & [Hb _]). eauto.
Qed.

(** C9 (as the code has it): with [gap] the computed gap, or the configured
    one when the computed gap is zero or unset, [renderChart] draws exactly
    one separator if and only if some bar at an index i > 0 is a [bar]
    whose predecessor is not and, at the first such i,
    bars[i].xPosition - gap/2 is positive; it is then drawn at that
    x-coordinate.  Otherwise no separator is drawn. *)
Theorem separator_at_first_boundary this width height :
  let gap :=
    or_number (_computedBarGap this)
      (barGap (chartSettings (formattingSettings this))) in
  let colors := colorSettings (formattingSettings this) in
  let seps :=
    filter isSeparator
      (childNodes_of (svgContainer (renderChart this width height))) in
  (forall i b, firstBoundary (bars this) i b ->
     (0 < xPosition b - gap / 2 ->
      seps = [separatorNode colors (xPosition b - gap / 2) height]) /\
     (~ 0 < xPosition b - gap / 2 -> seps = [])) /\
  ((forall i b, ~ boundaryAt (bars this) i b) -> seps = []) /\
  (List.length seps = 1%nat <->
   exists i b, firstBoundary (bars this) i b /\ 0 < xPosition b - gap / 2) /\
  (forall g, _computedBarGap this = Some g -> ~ g == 0 -> gap = g) /\
  (forall g, _computedBarGap this = Some g -> g == 0 ->
     gap = barGap (chartSettings (formattingSettings this))).
Proof.
  intros gap colors seps.
  pose proof (separators_first this width height) as Hfirst.
  pose proof (separators_none this width height) as Hnone.
  fold gap colors seps in Hfirst, Hnone.
  repeat split.
  - intros Hpos. rewrite (Hfirst i b) by assumption.
    apply Qlt_bool_iff in Hpos. now rewrite Hpos.
  - intros Hneg. rewrite (Hfirst i b) by assumption.
    destruct (Qlt_bool 0 (xPosition b - gap / 2)) eqn:E; [|reflexivity].
    apply Qlt_bool_iff in E. contradiction.
  - exact Hnone.
  - intros Hone.
    destruct (findSeparatorX_spec gap (bars this) None)
      as [(i0 & b0 & Hb0 & Hx) | [Hno _]]; cbn [inView] in *.
    + exists i0, b0. split; [exact Hb0|].
      rewrite (Hfirst i0 b0 Hb0) in Hone.
      destruct (Qlt_bool 0 (xPosition b0 - gap / 2)) eqn:E;
        [now apply Qlt_bool_iff in E | discriminate].
    + rewrite (Hnone Hno) in Hone. discriminate.
  - intros (i & b & Hb & Hpos). rewrite (Hfirst i b Hb).
    apply Qlt_bool_iff in Hpos. now rewrite Hpos.
  - intros g Hg Hnz. unfold gap. rewrite Hg. cbn.
    destruct (Qeq_bool g 0) eqn:E; [|reflexivity].
    apply Qeq_bool_iff in E. contradiction.
  - intros g Hg Hz. unfold gap. rewrite Hg. cbn.
    apply Qeq_bool_iff in Hz. now rewrite Hz.
Qed.

(** After [computeBarPositions] in a viewport wider than the margins, the
    computed width and gap are positive. *)
Lemma dynamic_positive (s : ChartSettingsCard) n vw :
  (0 < n)%nat -> 70 < vw -> 0 < barWidth s -> 0 < barGap s ->
  0 < dynamicBarWidth s (of_nat n) vw /\ 0 < dynamicBarGap s (of_nat n) vw.
Proof.
  intros Hn Hvw HW HG.
  assert (Hr : 0 < gapRatio s).
  { unfold gapRatio, Qdiv. apply Qmult_lt_0_compat; [assumption|].
    now apply Qinv_lt_0_compat. }
  assert (HN : 1 <= of_nat n) by now apply of_nat_pos.
  assert (HU : 0 < totalUnits s (of_nat n)).
  { assert (0 <= (of_nat n - 1) * gapRatio s)
      by (apply Qmult_le_0_compat; lra).
    unfold totalUnits. lra. }
  assert (Hw : 0 < dynamicBarWidth s (of_nat n) vw).
  { unfold dynamicBarWidth. apply Q.min_glb_lt; [|lra].
    apply Qlt_shift_div_l; [exact HU|].
    unfold availableWidth, margin_left, margin_right. lra. }
  split; [exact Hw|].
  unfold dynamicBarGap. now apply Qmult_lt_0_compat.
Qed.

(** X1: for a non-empty bar list, a viewport wider than the two margins (70)
    and positive configured width and gap, the gap computed by
    [computeBarPositions] is positive and [renderChart] draws exactly one
    separator if and only if some bar at an index i > 0 is a [bar] whose
    predecessor is not; it is drawn at the first such bar, half the
    computed gap to its left. *)
Theorem separator_wide_viewport this viewportWidth viewportHeight :
  let s := chartSettings (formattingSettings this) in
  let positioned := computeBarPositions this viewportWidth viewportHeight in
  let g := dynamicBarGap s (of_nat (List.length (bars this))) viewportWidth in
  let seps :=
    filter isSeparator
      (childNodes_of
         (svgContainer (renderChart positioned viewportWidth viewportHeight))) in
  bars this <> [] -> 70 < viewportWidth -> 0 < barWidth s -> 0 < barGap s ->
  _computedBarGap positioned = Some g /\
  0 < g /\
  (forall i b, firstBoundary (bars positioned) i b ->
     seps = [separatorNode (colorSettings (formattingSettings this))
               (xPosition b - g / 2) viewportHeight]) /\
  (List.length seps = 1%nat <-> exists i b, boundaryAt (bars positioned) i b).
Proof.
  intros s positioned g seps Hne Hvw HW HG.
  assert (Hn : (0 < List.length (bars this))%nat)
    by (destruct (bars this); [congruence | simpl; lia]).
  destruct (dynamic_positive s _ _ Hn Hvw HW HG) as [Hw Hg]. fold g in Hg.
  assert (Hgap : or_number (_computedBarGap positioned)
                   (barGap (chartSettings (formattingSettings positioned))) = g).
  { cbn [positioned computeBarPositions _computedBarGap or_number]. fold s g.
    destruct (Qeq_bool g 0) eqn:E; [|reflexivity].
    apply Qeq_bool_iff in E. lra. }
  assert (Hdrawn : forall i b, firstBoundary (bars positioned) i b ->
            seps = [separatorNode (colorSettings (formattingSettings this))
                      (xPosition b - g / 2) viewportHeight]).
  { intros i b Hb. unfold seps.
    rewrite (separators_first positioned _ _ i b Hb). cbv zeta.
    rewrite Hgap.
    destruct Hb as [(j & p & -> & _ & Hi & _) _].
    unfold positioned, computeBarPositions in Hi. cbn [bars] in Hi.
    rewrite layoutY_layoutX in Hi. cbn [fst] in Hi.
    apply layoutX_nth in Hi. fold s g in Hi.
    assert (Hpos : 0 < xPosition b - g / 2).
    { rewrite Hi.
      assert (1 * (dynamicBarWidth s
                     (of_nat (List.length (bars this))) viewportWidth + g)
              <= of_nat (S j) *
                 (dynamicBarWidth s
                    (of_nat (List.length (bars this))) viewportWidth + g))
        by (apply Qmult_le_compat_r; [apply of_nat_pos; lia | lra]).
      set (reach := of_nat (S j) * _) in *.
      assert (Hhalf : g / 2 == g * (1 # 2)) by field.
      unfold margin_left. lra. }
    apply Qlt_bool_iff in Hpos. now rewrite Hpos. }
  repeat split; try assumption.
  - intros Hone. apply first_boundary_exists.
    destruct (findSeparatorX_spec 0 (bars positioned) None)
      as [(i0 & b0 & Hb0 & _) | [Hnone _]]; cbn [inView] in *; [eauto|].
    unfold seps in Hone. rewrite (separators_none positioned _ _ Hnone) in Hone.
    discriminate.
  - intros Hex. apply first_boundary_exists in Hex.
    destruct Hex as (i & b & Hb). now rewrite (Hdrawn i b Hb).
Qed.

End SeparatorProperties.

(** ** The waterfall on any list of bars *)

Lemma Some_eq {A} (x y : A) : Some x = Some y -> x = y.
Proof. congruence. Qed.

Lemma layoutY_runningTotal l : forall st,
  runningTotal (snd (layoutY st l)) =
  fold_left Qplus (map totalValue (filter is_step l)) (runningTotal st).
Proof.
  induction l as [|b l IH]; intros st; [reflexivity|].
  rewrite layoutY_cons. cbn [snd filter]. rewrite IH.
  unfold stepY, is_step. now destruct (barType b).
Qed.

(** X2: whatever the types of the bars, the running total a bar meets is
    the sum of the [step] bars before it; a [step] spans from there to
    there plus its value, a [subtotal] and a [total] span from 0 to there,
    a [bar] from 0 to its own value. *)
Theorem waterfall_spans this viewportWidth viewportHeight pre b post :
  bars this = pre ++ b :: post ->
  exists b',
    nth_error (bars (computeBarPositions this viewportWidth viewportHeight))
      (List.length pre) = Some b' /\
    spanY b' =
    match barType b with
    | step => (stepsBefore pre, stepsBefore pre + totalValue b)
    | subtotal | total => (0, stepsBefore pre)
    | bar => (0, totalValue b)
    end.
Proof.
  intros Hbars.
  set (out := bars (computeBarPositions this viewportWidth viewportHeight)).
  assert (Hspan : map spanY out =
                  map spanY (fst (layoutY initialY pre)) ++
                  spanY (fst (stepY (snd (layoutY initialY pre)) b)) ::
                  map spanY
                    (fst (layoutY
                            (snd (stepY (snd (layoutY initialY pre)) b)) post))).
  { unfold out. rewrite computeBarPositions_spanY, Hbars, layoutY_app.
    cbn [fst]. rewrite layoutY_cons. cbn [fst]. now rewrite map_app. }
  assert (Hlen : List.length (map spanY (fst (layoutY initialY pre))) =
                 List.length pre)
    by now rewrite length_map, layoutY_length.
  destruct (nth_error out (List.length pre)) as [b'|] eqn:E.
  - exists b'. split; [reflexivity|].
    apply (map_nth_error spanY) in E. rewrite Hspan, <- Hlen in E.
    rewrite nth_error_at in E. apply Some_eq in E. rewrite <- E.
    pose proof (layoutY_runningTotal pre initialY) as Hrt.
    change (runningTotal (snd (layoutY initialY pre)) = stepsBefore pre) in Hrt.
    rewrite <- Hrt. unfold stepY. now destruct (barType b).
  - apply nth_error_None in E. unfold out in E.
    rewrite computeBarPositions_length, Hbars, length_app in E.
    simpl in E. lia.
Qed.

Lemma layoutY_spanFromTotal l : forall st,
  Forall spanFromTotal (fst (layoutY st l)).
Proof.
  induction l as [|b l IH]; intros st; [constructor|].
  rewrite layoutY_cons. cbn [fst]. constructor; [|apply IH].
  unfold stepY, spanFromTotal. destruct (barType b) eqn:E; cbn; rewrite E;
    repeat split; reflexivity.
Qed.

Lemma layoutY_parsedFields l : forall st,
  map parsedFields (fst (layoutY st l)) = map parsedFields l.
Proof.
  induction l as [|b l IH]; intros st; [reflexivity|].
  rewrite layoutY_cons. cbn [fst map]. rewrite IH. f_equal.
  unfold stepY. now destruct (barType b).
Qed.

Lemma layoutX_parsedFields dx l : forall x,
  map parsedFields (layoutX x dx l) = map parsedFields l.
Proof.
  induction l as [|b l IH]; intros x; [reflexivity|].
  cbn [layoutX map]. now rewrite IH.
Qed.

Lemma sorted_by_fields l1 l2 :
  map parsedFields l1 = map parsedFields l2 ->
  StronglySorted bySequence l1 -> StronglySorted bySequence l2.
Proof.
  intros Hmap Hs. revert l2 Hmap.
  induction Hs as [|a l Hl IH Ha]; intros [|b l2] Hmap; try discriminate;
    [constructor|].
  cbn [map] in Hmap. inversion Hmap as [[Hc Ht Hq Hv Htv Hrest]].
  constructor; [now apply IH|].
  assert (Hseq : map sequence l = map sequence l2).
  { apply (f_equal (map (fun t => snd (fst (fst t))))) in Hrest.
    rewrite !map_map in Hrest. exact Hrest. }
  apply Forall_forall. intros c Hin.
  apply (in_map sequence) in Hin. rewrite <- Hseq in Hin.
  apply in_map_iff in Hin. destruct Hin as (c' & Hc' & Hin').
  rewrite Forall_forall in Ha. specialize (Ha c' Hin').
  unfold bySequence in *. now rewrite <- Hq, <- Hc'.
Qed.

Lemma layout_fields this vw vh :
  map parsedFields (bars (computeBarPositions this vw vh)) =
    map parsedFields (bars this) /\
  List.length (bars (computeBarPositions this vw vh)) = List.length (bars this).
Proof.
  split; [|apply computeBarPositions_length].
  unfold computeBarPositions. cbn [bars].
  now rewrite layoutY_parsedFields, layoutX_parsedFields.
Qed.

(** X4: [computeBarPositions] keeps the bars in their order and leaves
    what the parser made of them (category, type, sequence, stacked values
    and total) as it was; bars sorted by sequence stay sorted. *)
Theorem layout_keeps_parsed_data this viewportWidth viewportHeight :
  let after := computeBarPositions this viewportWidth viewportHeight in
  map parsedFields (bars after) = map parsedFields (bars this) /\
  (StronglySorted bySequence (bars this) ->
   StronglySorted bySequence (bars after)) /\
  formattingSettings after = formattingSettings this /\
  svgContainer after = svgContainer this.
Proof.
  intros after.
  assert (Hmap : map parsedFields (bars after) = map parsedFields (bars this))
    by exact (proj1 (layout_fields this viewportWidth viewportHeight)).
  repeat split; [exact Hmap|].
  apply sorted_by_fields. now symmetry.
Qed.

(** ** Rows in order, rows of blanks *)

Section SortedInput.
Context {A : Type} (key : A -> Q).

(** The sort leaves a sorted list as it is. *)
Lemma sort_sorted_id l :
  StronglySorted (fun a b => key a <= key b) l ->
  sort (fun a b => key a - key b) l = l.
Proof.
  induction 1 as [|x l Hl IH Hx]; [reflexivity|].
  cbn [sort fold_right]. fold (sort (fun a b => key a - key b) l).
  rewrite IH. destruct l as [|y l]; [reflexivity|].
  cbn [insert]. inversion Hx as [|? ? Hxy _]; subst.
  destruct (Qlt_bool 0 (key x - key y)) eqn:E; [|reflexivity].
  apply (moves_past key) in E. lra.
Qed.

End SortedInput.

Section RowProperties.
Context `{Builtins}.

Lemma parseData_sorted this dataView :
  StronglySorted bySequence (parseData this dataView).
Proof.
  unfold parseData.
  destruct (categorical dataView) as [c|]; [|constructor].
  destruct (categories c) as [cats|]; [|constructor].
  destruct (List.length cats <? 2)%nat; [constructor|].
  apply (sort_sorted sequence).
Qed.

Lemma rows_without_sequence_sorted (f : nat -> BarData) :
  (forall i, sequence (f i) = of_nat i) ->
  forall n a, StronglySorted bySequence (map f (seq a n)).
Proof.
  intros Hf. induction n as [|n IH]; intros a; [constructor|].
  cbn [seq map]. constructor; [apply IH|].
  apply Forall_forall. intros b Hb.
  apply in_map_iff in Hb. destruct Hb as (j & <- & Hj).
  apply in_seq in Hj. unfold bySequence. rewrite !Hf.
  unfold of_nat. rewrite <- Zle_Qle. lia.
Qed.

(** X6: rows that already come in ascending order of sequence are returned
    in row order; in particular, with exactly two categorical columns (no
    sequence column) [parseData] returns the bar of row i at index i. *)
Theorem parseData_keeps_row_order this dataView c categoryColumn barTypeColumn
    rest :
  categorical dataView = Some c ->
  categories c = Some (categoryColumn :: barTypeColumn :: rest) ->
  let rows :=
    parseRows this (categoryColumn :: barTypeColumn :: rest)
      (categorical_values c) in
  (StronglySorted bySequence rows -> parseData this dataView = rows) /\
  (rest = [] ->
   forall i, (i < List.length (values categoryColumn))%nat ->
     nth_error (parseData this dataView) i =
     Some (parseRow (host this)
             (defaultBarColor (colorSettings (formattingSettings this)))
             categoryColumn barTypeColumn None
             (match categorical_values c with Some l => l | None => [] end)
             i)).
Proof.
  intros Hc Hcats rows.
  assert (Hsorted : StronglySorted bySequence rows ->
                    parseData this dataView = rows).
  { intros Hs. rewrite (parseData_sorted_rows _ _ _ _ _ _ Hc Hcats).
    now apply (sort_sorted_id sequence). }
  split; [exact Hsorted|].
  intros -> i Hi. rewrite Hsorted.
  - unfold rows. now rewrite parseRows_nth.
  - unfold rows. cbn [parseRows].
    apply rows_without_sequence_sorted. intros j.
    now rewrite parseRow_sequence.
Qed.

Lemma collectStacked_blank host defaultColor i cols : forall v acc tot,
  Forall (fun col => blank (index (values col) i)) cols ->
  collectStacked host defaultColor cols i v acc tot = (acc, tot).
Proof.
  induction cols as [|col cols IH]; intros v acc tot Hall; [reflexivity|].
  inversion Hall as [|? ? Hcol Hrest]; subst.
  cbn [collectStacked].
  destruct Hcol as [-> | ->]; cbn; now apply IH.
Qed.

(** X7: a row whose cells are all blank (missing, because the column is
    too short, or null) is not rejected: it gives the bar with the empty
    category, type [step], the row index for sequence, no stacked value and
    total 0. *)
Theorem blank_row_defaults host defaultColor categoryColumn barTypeColumn
    sequenceColumn valueColumns i :
  blank (index (values categoryColumn) i) ->
  blank (index (values barTypeColumn) i) ->
  (forall col, sequenceColumn = Some col -> blank (index (values col) i)) ->
  Forall (fun col => blank (index (values col) i)) valueColumns ->
  parseRow host defaultColor categoryColumn barTypeColumn sequenceColumn
    valueColumns i = blankBar i.
Proof.
  intros Hcat Htype Hseq Hvals. unfold parseRow.
  rewrite (collectStacked_blank _ _ _ _ _ _ _ Hvals).
  assert (Hs : match sequenceColumn with
               | Some col => or_number (ToNumber (index (values col) i))
                               (of_nat i)
               | None => of_nat i
               end = of_nat i).
  { destruct sequenceColumn as [col|]; [|reflexivity].
    now destruct (Hseq col eq_refl) as [-> | ->]. }
  rewrite Hs.
  destruct Hcat as [-> | ->], Htype as [-> | ->]; reflexivity.
Qed.

(** X8: whenever an update carries a table, the bars the visual holds
    afterwards are the parser's bars in the parser's order, sorted by
    sequence, whatever the layout did to their positions. *)
Theorem update_bars_sorted this options dataView :
  firstDataView options = Some dataView ->
  categorical dataView <> None ->
  let settled :=
    set_formattingSettings this
      (populateFormattingSettingsModel this (firstDataView options)) in
  let after := update this options in
  map parsedFields (bars after) =
    map parsedFields (parseData settled dataView) /\
  StronglySorted bySequence (bars after).
Proof.
  intros Hdv Hc settled after.
  assert (Hmap : map parsedFields (bars after) =
                 map parsedFields (parseData settled dataView)).
  { unfold after. rewrite (update_present _ _ _ Hdv Hc). fold settled.
    destruct (List.length (parseData settled dataView) =? 0)%nat;
      [reflexivity|].
    cbn [renderChart set_svgContainer bars].
    exact (proj1 (layout_fields _ _ _)). }
  split; [exact Hmap|].
  apply (sorted_by_fields (parseData settled dataView));
    [now symmetry | apply parseData_sorted].
Qed.

End RowProperties.

(** ** Updates do not remember *)

Lemma setAttribute_again attrs k v1 v2 :
  setAttribute (setAttribute attrs k v1) k v2 = setAttribute attrs k v2.
Proof.
  induction attrs as [|[k' w] attrs IH]; cbn.
  - now rewrite String.eqb_refl.
  - destruct (String.eqb k' k) eqn:E; cbn; rewrite E; [reflexivity|].
    now rewrite IH.
Qed.

Lemma setAttribute_behind attrs k k' v1 v' v2 :
  k <> k' ->
  setAttribute (setAttribute (setAttribute attrs k v1) k' v') k v2 =
  setAttribute (setAttribute attrs k v2) k' v'.
Proof.
  intros Hk. apply String.eqb_neq in Hk.
  induction attrs as [|[k0 w] attrs IH].
  - cbn. rewrite Hk. cbn. now rewrite String.eqb_refl.
  - destruct (String.eqb k0 k) eqn:E, (String.eqb k0 k') eqn:E'.
    + apply String.eqb_eq in E, E'. subst. now rewrite String.eqb_refl in Hk.
    + now repeat (cbn [setAttribute]; rewrite ?E, ?E').
    + repeat (cbn [setAttribute]; rewrite ?E, ?E').
      now rewrite setAttribute_again.
    + repeat (cbn [setAttribute]; rewrite ?E, ?E'). now rewrite IH.
Qed.

Section UpdateAgain.
Context `{Builtins}.

Lemma resized_again svg w1 h1 c1 w2 h2 c2 :
  resized (resized svg w1 h1 c1) w2 h2 c2 = resized svg w2 h2 c2.
Proof.
  unfold resized. cbn [tagName_of attributes_of textContent_of]. f_equal.
  now rewrite !setAttribute_behind by discriminate.
Qed.

(** What [update] draws is read off the options, the settings service and
    the host; the rest of the visual does not count. *)
Lemma update_drawing a b options :
  populateFormattingSettingsModel a = populateFormattingSettingsModel b ->
  host a = host b ->
  childNodes_of (svgContainer (update a options)) =
  childNodes_of (svgContainer (update b options)).
Proof.
  destruct a, b. cbn [populateFormattingSettingsModel host].
  intros -> ->. unfold update.
  destruct (firstDataView options) as [dataView|]; [|reflexivity].
  destruct (categorical dataView) eqn:Hc; [|reflexivity].
  unfold parseData, parseRows, set_bars, set_formattingSettings.
  cbn [bars host formattingSettings populateFormattingSettingsModel].
  destruct (List.length _ =? 0)%nat; reflexivity.
Qed.

Lemma update_container this options :
  svgContainer (update this options) =
  resized (svgContainer this) (width (viewport options))
    (height (viewport options))
    (childNodes_of (svgContainer (update this options))) /\
  populateFormattingSettingsModel (update this options) =
    populateFormattingSettingsModel this /\
  host (update this options) = host this.
Proof.
  unfold update.
  destruct (firstDataView options) as [dataView|]; [|now repeat split].
  destruct (categorical dataView); [|now repeat split].
  cbn [set_bars bars].
  destruct (List.length _ =? 0)%nat; now repeat split.
Qed.

(** X9: an update replaces the drawing whole: after any earlier update the
    container (size, attributes and children) is what the later update
    alone would have made of it. *)
Theorem update_forgets_previous this earlier options :
  svgContainer (update (update this earlier) options) =
  svgContainer (update this options).
Proof.
  destruct (update_container this earlier) as (Hsvg & Hpop & Hhost).
  rewrite (proj1 (update_container (update this earlier) options)).
  rewrite (proj1 (update_container this options)).
  rewrite (update_drawing (update this earlier) this options Hpop Hhost).
  rewrite Hsvg. apply resized_again.
Qed.

End UpdateAgain.

(** ** The vertical scale *)

Lemma maxAbs_fold l : forall m,
  m <= fold_left (fun m b => Qmax (Qmax m (Qabs (endY b))) (Qabs (startY b)))
         l m /\
  Forall (fun b =>
            Qabs (endY b) <=
              fold_left
                (fun m b => Qmax (Qmax m (Qabs (endY b))) (Qabs (startY b)))
                l m /\
            Qabs (startY b) <=
              fold_left
                (fun m b => Qmax (Qmax m (Qabs (endY b))) (Qabs (startY b)))
                l m) l.
Proof.
  induction l as [|b l IH]; intros m; [split; [apply Qle_refl | constructor]|].
  cbn [fold_left].
  destruct (IH (Qmax (Qmax m (Qabs (endY b))) (Qabs (startY b)))) as [Hm Hall].
  pose proof (Q.le_max_l (Qmax m (Qabs (endY b))) (Qabs (startY b))) as H1.
  pose proof (Q.le_max_r (Qmax m (Qabs (endY b))) (Qabs (startY b))) as H2.
  pose proof (Q.le_max_l m (Qabs (endY b))) as H3.
  pose proof (Q.le_max_r m (Qabs (endY b))) as H4.
  split; [lra|]. constructor; [split; lra | exact Hall].
Qed.

Lemma maxAbsValue_bounds l :
  0 < maxAbsValue l /\
  Forall (fun b => Qabs (endY b) <= maxAbsValue l /\
                   Qabs (startY b) <= maxAbsValue l) l.
Proof.
  unfold maxAbsValue, or_number.
  destruct (maxAbs_fold l 0) as [H0 Hall].
  set (m := fold_left _ l 0) in *.
  destruct (Qeq_bool m 0) eqn:E.
  - apply Qeq_bool_iff in E. split; [reflexivity|].
    eapply Forall_impl; [|exact Hall]. cbv beta. intros b [He Hs]. lra.
  - apply Qeq_bool_neq in E. split; [|exact Hall].
    apply Qle_lteq in H0. destruct H0 as [Hlt | Heq]; [exact Hlt|].
    now symmetry in Heq.
Qed.

Lemma Qmax_either (x y : Q) : Qmax x y = x \/ Qmax x y = y.
Proof.
  unfold Qmax, GenericMinMax.gmax. destruct (x ?= y); auto.
Qed.

Lemma maxAbs_fold_zero l : forall m,
  Forall endsAreZero l -> m == 0 ->
  fold_left (fun m b => Qmax (Qmax m (Qabs (endY b))) (Qabs (startY b))) l m
    == 0.
Proof.
  induction l as [|b l IH]; intros m Hall Hm; [exact Hm|].
  inversion Hall as [|b' l' [Hs He] Hrest]; subst.
  cbn [fold_left]. apply IH; [exact Hrest|].
  assert (He' : Qabs (endY b) == 0) by now rewrite He.
  assert (Hs' : Qabs (startY b) == 0) by now rewrite Hs.
  destruct (Qmax_either (Qmax m (Qabs (endY b))) (Qabs (startY b))) as [-> | ->];
    [|exact Hs'].
  destruct (Qmax_either m (Qabs (endY b))) as [-> | ->]; assumption.
Qed.

Lemma maxAbs_fold_source l : forall m,
  let r :=
    fold_left (fun m b => Qmax (Qmax m (Qabs (endY b))) (Qabs (startY b)))
      l m in
  r = m \/
  exists b, In b l /\ (r = Qabs (endY b) \/ r = Qabs (startY b)).
Proof.
  induction l as [|b l IH]; intros m; [now left|].
  cbn [fold_left]. cbv zeta.
  destruct (IH (Qmax (Qmax m (Qabs (endY b))) (Qabs (startY b))))
    as [Hr | (b' & Hin & Hr)].
  - cbv zeta in Hr. rewrite Hr.
    destruct (Qmax_either (Qmax m (Qabs (endY b))) (Qabs (startY b)))
      as [-> | ->].
    + destruct (Qmax_either m (Qabs (endY b))) as [-> | ->].
      * now left.
      * right. exists b. split; [now left | now left].
    + right. exists b. split; [now left | now right].
  - right. exists b'. split; [now right | exact Hr].
Qed.

Lemma maxAbsValue_all_zero l : Forall endsAreZero l -> maxAbsValue l = 1.
Proof.
  intros Hall. unfold maxAbsValue, or_number.
  pose proof (maxAbs_fold_zero l 0 Hall (Qeq_refl 0)) as Hz.
  apply Qeq_bool_iff in Hz. now rewrite Hz.
Qed.

Lemma maxAbsValue_source l :
  Exists (fun b => ~ endsAreZero b) l ->
  exists b, In b l /\
    (maxAbsValue l = Qabs (endY b) \/ maxAbsValue l = Qabs (startY b)).
Proof.
  intros Hex. unfold maxAbsValue, or_number.
  destruct (maxAbs_fold l 0) as [H0 Hall].
  pose proof (maxAbs_fold_source l 0) as Hsrc. cbv zeta in Hsrc.
  set (m := fold_left _ l 0) in *.
  assert (Hpos : 0 < m).
  { apply Exists_exists in Hex. destruct Hex as (b & Hin & Hnz).
    rewrite Forall_forall in Hall. destruct (Hall b Hin) as [He Hs].
    destruct (Qlt_le_dec 0 m) as [Hlt | Hle]; [exact Hlt|].
    exfalso. apply Hnz. split.
    - apply Qabs_Qle_condition in Hs. lra.
    - apply Qabs_Qle_condition in He. lra. }
  destruct (Qeq_bool m 0) eqn:E.
  - apply Qeq_bool_iff in E. lra.
  - destruct Hsrc as [Hm | Hb]; [|exact Hb].
    rewrite Hm in Hpos. now apply Qlt_irrefl in Hpos.
Qed.

(** X10: the maximum of the scale of [renderChart] is positive, so the
    scale never divides by zero: it is 1 when both ends of every bar are
    zero (and when there is no bar), and otherwise the absolute value of
    an end of one of the bars.  No end of a bar is larger in absolute
    value, so every end is scaled to a ratio between -1 and 1.  The
    baseline is one chart height below the top margin and, for a chart
    height that is not negative, an end that is not negative is drawn at
    or above the baseline and an end that is not positive at or below
    it.  (The numbers of the model are all finite.) *)
Theorem scale_maximum (l : list BarData) (chartHeight : Q) :
  0 <= chartHeight ->
  let maxValue := maxAbsValue l in
  let ys := yScale chartHeight maxValue in
  0 < maxValue /\
  (Forall endsAreZero l -> maxValue = 1) /\
  (Exists (fun b => ~ endsAreZero b) l ->
   exists b, In b l /\
     (maxValue = Qabs (endY b) \/ maxValue = Qabs (startY b))) /\
  ys 0 == margin_top + chartHeight /\
  Forall (fun b =>
            forall v, v = startY b \/ v = endY b ->
              Qabs v <= maxValue /\
              - (1) <= v / maxValue <= 1 /\
              (0 <= v -> ys v <= ys 0) /\
              (v <= 0 -> ys 0 <= ys v)) l.
Proof.
  intros Hch maxValue ys.
  destruct (maxAbsValue_bounds l) as [Hpos Hall]. fold maxValue in Hpos, Hall.
  split; [exact Hpos|].
  split; [apply maxAbsValue_all_zero|].
  split; [apply maxAbsValue_source|].
  split.
  - unfold ys, yScale. field. lra.
  - eapply Forall_impl; [|exact Hall]. cbv beta.
    intros b [He Hs] v Hv.
    assert (Habs : Qabs v <= maxValue) by now destruct Hv as [-> | ->].
    split; [exact Habs|].
    apply Qabs_Qle_condition in Habs. destruct Habs as [Hlo Hhi].
    assert (Hr1 : v / maxValue <= 1)
      by (apply Qle_shift_div_r; [exact Hpos | lra]).
    assert (Hr2 : - (1) <= v / maxValue)
      by (apply Qle_shift_div_l; [exact Hpos | lra]).
    split; [split; assumption|].
    assert (Hzero : 0 / maxValue * chartHeight == 0) by (field; lra).
    unfold ys, yScale. rewrite Hzero.
    set (rise := v / maxValue * chartHeight) in *.
    split.
    + intros Hv0.
      assert (0 <= v / maxValue)
        by (apply Qle_shift_div_l; [exact Hpos | lra]).
      assert (0 <= rise) by (apply Qmult_le_0_compat; assumption).
      lra.
    + intros Hv0.
      assert (Hneg : 0 <= - (v / maxValue)).
      { assert (v / maxValue <= 0)
          by (apply Qle_shift_div_r; [exact Hpos | lra]).
        lra. }
      assert (Hrise : 0 <= - (v / maxValue) * chartHeight)
        by (apply Qmult_le_0_compat; assumption).
      assert (Heq : - (v / maxValue) * chartHeight == - rise)
        by (unfold rise; ring).
      lra.
Qed.

(** ** Value formatting: sign, small values, whole numbers *)

Lemma Qopp_opp_eq (v : Q) : - - v = v.
Proof. destruct v as [n d]. unfold Qopp. cbn. now rewrite Z.opp_involutive. Qed.

Lemma Qabs_opp_eq (v : Q) : Qabs (- v) = Qabs v.
Proof. destruct v as [n d]. unfold Qabs, Qopp. cbn. now rewrite Z.abs_opp. Qed.

Lemma Qabs_pos_eq (v : Q) : 0 < v -> Qabs v = v.
Proof.
  destruct v as [n d]. unfold Qlt. cbn. intros Hn.
  rewrite Z.abs_eq by lia. reflexivity.
Qed.

Lemma Qle_bool_false a b : b < a -> Qle_bool a b = false.
Proof.
  intros Hlt. destruct (Qle_bool a b) eqn:E; [|reflexivity].
  apply Qle_bool_iff in E. lra.
Qed.

Lemma Qeq_bool_false a b : ~ a == b -> Qeq_bool a b = false.
Proof.
  intros Hne. destruct (Qeq_bool a b) eqn:E; [|reflexivity].
  apply Qeq_bool_iff in E. contradiction.
Qed.

Lemma positive_tests v :
  0 < v ->
  Qlt_bool v 0 = false /\ Qlt_bool (- v) 0 = true /\
  Qeq_bool v 0 = false /\ Qeq_bool (- v) 0 = false.
Proof.
  intros Hv. repeat split.
  - destruct (Qlt_bool v 0) eqn:E; [|reflexivity].
    apply Qlt_bool_iff in E. lra.
  - apply Qlt_bool_iff. lra.
  - apply Qeq_bool_false. lra.
  - apply Qeq_bool_false. lra.
Qed.

Lemma Qfloor_zero e : 0 <= e -> e < 1 -> Qfloor e = 0%Z.
Proof.
  intros H0 H1.
  pose proof (Qfloor_le e) as Hle. pose proof (Qlt_floor e) as Hlt.
  assert (Hlo : (0 < Qfloor e + 1)%Z)
    by (rewrite Zlt_Qlt; change (inject_Z 0) with 0; lra).
  assert (Hhi : (Qfloor e < 1)%Z)
    by (rewrite Zlt_Qlt; change (inject_Z 1) with 1; lra).
  lia.
Qed.

Lemma strip_minus m :
  strip_dot_zeros (String "-" m) = String "-" (strip_dot_zeros m).
Proof. now destruct m. Qed.

Section FormatProperties.
Context `{Builtins}.

Lemma toFixed_opp v f :
  0 < v -> toFixed (- v) f = String "-" (toFixed v f).
Proof.
  intros Hv. destruct (positive_tests v Hv) as (H1 & H2 & _).
  unfold toFixed. rewrite H1, H2, Qopp_opp_eq. cbv zeta.
  now destruct (Qle_bool (inject_Z (10 ^ 21)) v).
Qed.

Lemma formatValue_opp v :
  0 < v -> formatValue (- v) = String "-" (formatValue v).
Proof.
  intros Hv. destruct (positive_tests v Hv) as (H1 & H2 & H3 & H4).
  unfold formatValue. rewrite H1, H2, H3, H4, Qabs_opp_eq. cbv zeta.
  destruct (Qle_bool 1000000000 (Qabs v)); [reflexivity|].
  destruct (Qle_bool 1000000 (Qabs v)); [reflexivity|].
  destruct (Qle_bool 1000 (Qabs v)); [reflexivity|].
  now rewrite toFixed_opp, strip_minus.
Qed.

(** X11: the sign is carried by a leading "-": for every positive v,
    [formatValue (-v)] is "-" followed by [formatValue v].  A magnitude
    below 0.005 is rounded away, so that such a value prints "0" when
    positive and "-0" when negative. *)
Theorem formatValue_sign :
  (forall v, 0 < v -> formatValue (- v) = String "-" (formatValue v)) /\
  (forall v, 0 < v -> v < 1 # 200 ->
     formatValue v = "0"%string /\ formatValue (- v) = "-0"%string).
Proof.
  split; [exact formatValue_opp|].
  intros v Hv Hsmall.
  assert (Hpos : formatValue v = "0"%string).
  { destruct (positive_tests v Hv) as (H1 & _ & H3 & _).
    unfold formatValue. rewrite H1, H3, (Qabs_pos_eq v Hv). cbv zeta.
    rewrite !Qle_bool_false by lra.
    unfold toFixed. rewrite H1. cbv zeta.
    rewrite Qle_bool_false
      by (change (inject_Z (10 ^ 21)) with 1000000000000000000000; lra).
    change (inject_Z (10 ^ Z.of_nat 2)) with 100.
    rewrite (Qfloor_zero (v * 100 + (1 # 2))) by lra.
    reflexivity. }
  split; [exact Hpos|].
  now rewrite formatValue_opp, Hpos.
Qed.

(** X12: whole numbers print without decimals: for every whole k from 1
    to 999, k prints as its digits, k thousand as its digits and "K", and k
    million as its digits and "M". *)
Theorem formatValue_whole k :
  (1 <= k <= 999)%nat ->
  formatValue (of_nat k) = digits (Z.of_nat k) /\
  formatValue (of_nat k * 1000) = (digits (Z.of_nat k) ++ "K")%string /\
  formatValue (of_nat k * 1000000) = (digits (Z.of_nat k) ++ "M")%string.
Proof.
  intros Hk.
  assert (Hall :
    forallb
      (fun k =>
         String.eqb (formatValue (of_nat k)) (digits (Z.of_nat k)) &&
         String.eqb (formatValue (of_nat k * 1000))
           (digits (Z.of_nat k) ++ "K")%string &&
         String.eqb (formatValue (of_nat k * 1000000))
           (digits (Z.of_nat k) ++ "M")%string)
      (seq 1 999) = true) by (vm_compute; reflexivity).
  rewrite forallb_forall in Hall.
  assert (Hin : In k (seq 1 999)) by (apply in_seq; lia).
  apply Hall in Hin. apply andb_true_iff in Hin. destruct Hin as [Hin HM].
  apply andb_true_iff in Hin. destruct Hin as [H1 HK].
  apply String.eqb_eq in H1, HK, HM. auto.
Qed.

End FormatProperties.

(** ** What the drawing holds *)

Lemma filter_map_all {A B} (f : B -> bool) (g : A -> B) l :
  (forall x, f (g x) = true) -> filter f (map g l) = map g l.
Proof.
  intros Hf. induction l as [|x l IH]; [reflexivity|].
  cbn [map filter]. now rewrite Hf, IH.
Qed.

Lemma filter_map_none {A B} (f : B -> bool) (g : A -> B) l :
  (forall x, f (g x) = false) -> filter f (map g l) = [].
Proof.
  intros Hf. induction l as [|x l IH]; [reflexivity|].
  cbn [map filter]. now rewrite Hf, IH.
Qed.

Lemma filter_if {A} (f : A -> bool) (c : bool) (l : list A) :
  filter f (if c then l else []) = if c then filter f l else [].
Proof. now destruct c. Qed.

Section DrawingProperties.
Context `{Builtins}.

Lemma connectorNodes_pairs colors w ys l :
  connectorNodes colors w ys l =
  map (fun p => connectorNode colors w ys (fst p) (snd p)) (stepPairs l).
Proof.
  induction l as [|current rest IH]; [reflexivity|].
  destruct rest as [|next rest]; [reflexivity|].
  change (connectorNodes colors w ys (current :: next :: rest)) with
    ((if is_step current && is_step next
      then [connectorNode colors w ys current next] else []) ++
     connectorNodes colors w ys (next :: rest)).
  rewrite IH. unfold stepPairs. cbn [tl combine filter fst snd].
  now destruct (is_step current && is_step next).
Qed.

Lemma barGroupNode_shape chart colors w ys b :
  exists children,
    barGroupNode chart colors w ys b =
    Element "g"
      [("class", ("bar-group bar-type-" ++ barTypeName (barType b))%string)]
      "" children.
Proof. unfold barGroupNode. destruct (barType b); eexists; reflexivity. Qed.

Lemma separatorNodes_lines colors g h l (f : SvgNode -> bool) :
  f (separatorNode colors (findSeparatorX g None l) h) = false ->
  filter f (separatorNodes colors g h l) = [].
Proof.
  intros Hf. unfold separatorNodes.
  destruct (Qlt_bool 0 (findSeparatorX g None l)); [|reflexivity].
  cbn [filter]. now rewrite Hf.
Qed.

(** X13: connectors are drawn only when [showConnectors] is on, and then
    one for each pair of neighbouring bars that are both [step], in order,
    from the right edge of the first to the left edge of the second; no
    connector touches a bar of another type. *)
Theorem connectors_between_steps this width height :
  let chart := chartSettings (formattingSettings this) in
  let colors := colorSettings (formattingSettings this) in
  let barWidth := or_number (_computedBarWidth this) (barWidth chart) in
  let ys :=
    yScale (height - margin_top - margin_bottom) (maxAbsValue (bars this)) in
  filter isConnector
    (childNodes_of (svgContainer (renderChart this width height))) =
  if showConnectors chart
  then map (fun p => connectorNode colors barWidth ys (fst p) (snd p))
         (stepPairs (bars this))
  else [].
Proof.
  intros chart colors barWidth ys.
  rewrite renderChart_childNodes. unfold chartNodes.
  fold chart colors barWidth ys.
  rewrite !filter_app, !filter_if, connectorNodes_pairs.
  rewrite separatorNodes_lines by reflexivity.
  rewrite (filter_map_none isConnector (barGroupNode chart colors barWidth ys))
    by (intros b;
        destruct (barGroupNode_shape chart colors barWidth ys b) as [c ->];
        reflexivity).
  rewrite (filter_map_none isConnector
             (axisLabelNode (axisSettings (formattingSettings this))
                barWidth height)) by reflexivity.
  rewrite (filter_map_all isConnector) by reflexivity.
  cbn [filter app]. destruct (showConnectors chart), (showXAxis _);
    now rewrite ?app_nil_r.
Qed.

(** X14: the drawing holds one group per bar, in the order of the bars and
    classed by the bar's type, and, when the axis is shown, one label per
    bar under it, reading the bar's category; with the axis off no label
    is drawn at the top of the drawing. *)
Theorem one_group_and_label_per_bar this width height :
  let nodes := childNodes_of (svgContainer (renderChart this width height)) in
  map (fun n => getAttribute (attributes_of n) "class")
    (filter (hasTag "g") nodes) =
    map (fun b =>
           Some ("bar-group bar-type-" ++ barTypeName (barType b))%string)
      (bars this) /\
  map textContent_of (filter (hasTag "text") nodes) =
    if showXAxis (axisSettings (formattingSettings this))
    then map category (bars this) else [].
Proof.
  intros nodes. unfold nodes. rewrite renderChart_childNodes.
  unfold chartNodes.
  set (chart := chartSettings (formattingSettings this)).
  set (colors := colorSettings (formattingSettings this)).
  set (axis := axisSettings (formattingSettings this)).
  set (bw := or_number (_computedBarWidth this) (barWidth chart)).
  set (gap := or_number (_computedBarGap this) (barGap chart)).
  set (ys := yScale _ _).
  split.
  - rewrite !filter_app, !filter_if, connectorNodes_pairs.
    rewrite separatorNodes_lines by reflexivity.
    rewrite (filter_map_none (hasTag "g")
               (fun p => connectorNode colors bw ys (fst p) (snd p)))
      by reflexivity.
    rewrite (filter_map_none (hasTag "g") (axisLabelNode axis bw height))
      by reflexivity.
    rewrite (filter_map_all (hasTag "g")
               (barGroupNode chart colors bw ys))
      by (intros b;
          destruct (barGroupNode_shape chart colors bw ys b) as [c ->];
          reflexivity).
    change (filter (hasTag "g") [defsNode; baselineNode width (ys 0)])
      with (@nil SvgNode).
    replace (if showConnectors chart then [] else []) with (@nil SvgNode)
      by now destruct (showConnectors chart).
    replace (if showXAxis axis then [] else []) with (@nil SvgNode)
      by now destruct (showXAxis axis).
    rewrite app_nil_r. cbn [app]. rewrite map_map.
    apply map_ext. intros b.
    now destruct (barGroupNode_shape chart colors bw ys b) as [c ->].
  - rewrite !filter_app, !filter_if, connectorNodes_pairs.
    rewrite separatorNodes_lines by reflexivity.
    rewrite (filter_map_none (hasTag "text")
               (fun p => connectorNode colors bw ys (fst p) (snd p)))
      by reflexivity.
    rewrite (filter_map_all (hasTag "text")
               (axisLabelNode axis bw height)) by reflexivity.
    rewrite (filter_map_none (hasTag "text")
               (barGroupNode chart colors bw ys))
      by (intros b;
          destruct (barGroupNode_shape chart colors bw ys b) as [c ->];
          reflexivity).
    change (filter (hasTag "text") [defsNode; baselineNode width (ys 0)])
      with (@nil SvgNode).
    replace (if showConnectors chart then [] else []) with (@nil SvgNode)
      by now destruct (showConnectors chart).
    cbn [app]. destruct (showXAxis axis); [|reflexivity].
    now rewrite map_map.
Qed.

End DrawingProperties.

(** ** The stacked values of the parsed bars *)

Section StackProperties.
Context `{Builtins}.

Lemma parseData_In this dataView b :
  In b (parseData this dataView) ->
  exists categoryColumn barTypeColumn sequenceColumn valueColumns i,
    b = parseRow (host this)
          (defaultBarColor (colorSettings (formattingSettings this)))
          categoryColumn barTypeColumn sequenceColumn valueColumns i.
Proof.
  unfold parseData.
  destruct (categorical dataView) as [c|]; [|contradiction].
  destruct (categories c) as [cats|]; [|contradiction].
  destruct (List.length cats <? 2)%nat; [contradiction|].
  intros Hin.
  apply (Permutation_in _ (sort_perm sequence _)) in Hin.
  destruct cats as [|c0 [|c1 rest]]; try contradiction.
  cbn [parseRows] in Hin. apply in_map_iff in Hin.
  destruct Hin as (i & <- & _). eauto 6.
Qed.

Lemma collectStacked_named host defaultColor i cols : forall v acc tot,
  Forall (namedAndColoured host defaultColor) acc ->
  Forall (namedAndColoured host defaultColor)
    (fst (collectStacked host defaultColor cols i v acc tot)).
Proof.
  induction cols as [|col cols IH]; intros v acc tot Hacc; [exact Hacc|].
  cbn [collectStacked]. cbv zeta.
  destruct (negb (Qeq_bool (or_number (ToNumber (index (values col) i)) 0) 0))
    eqn:E; [|now apply IH].
  apply IH. apply Forall_app. split; [exact Hacc|].
  constructor; [|constructor].
  unfold namedAndColoured. cbn [measureName color value].
  repeat split.
  - unfold or_string.
    destruct (displayName (source col)) as [[|a name]|]; cbn; discriminate.
  - apply negb_true_iff in E. now apply Qeq_bool_neq.
Qed.

Lemma parseRow_stack host defaultColor categoryColumn barTypeColumn
    sequenceColumn valueColumns i :
  let b := parseRow host defaultColor categoryColumn barTypeColumn
             sequenceColumn valueColumns i in
  Forall (namedAndColoured host defaultColor) (stackedValues b) /\
  totalValue b = prefixSum (map value (stackedValues b)).
Proof.
  intros b.
  destruct (parseRow_collected host defaultColor categoryColumn barTypeColumn
              sequenceColumn valueColumns i) as [Hs Ht].
  fold b in Hs, Ht. rewrite Hs, Ht. split.
  - apply collectStacked_named. constructor.
  - destruct (collectStacked_values host defaultColor valueColumns i 0 [] 0)
      as [Hv Hsum].
    rewrite Hsum, Hv. reflexivity.
Qed.




Lemma fields_transfer (P : string * BarType * Q * list StackedValue * Q -> Prop)
    l1 l2 :
  map parsedFields l1 = map parsedFields l2 ->
  Forall (fun b => P (parsedFields b)) l1 ->
  Forall (fun b => P (parsedFields b)) l2.
Proof.
  intros Hmap Hall.
  rewrite <- (Forall_map parsedFields P) in Hall |- *.
  now rewrite <- Hmap.
Qed.

(** X16: after an update that carries a table, the stacked values of
    every bar, added in order from 0, give the bar's total.  A [step]
    ends at its start plus that sum; a [bar] starts at 0 and ends where
    adding its stacked values one by one to its start arrives; a
    [subtotal] and a [total] start at 0. *)
Theorem stacks_add_up this options dataView :
  firstDataView options = Some dataView ->
  categorical dataView <> None ->
  Forall stackAddsUp (bars (update this options)).
Proof.
  intros Hdv Hc.
  set (settled :=
         set_formattingSettings this
           (populateFormattingSettingsModel this (firstDataView options))).
  assert (Hparsed :
    Forall (fun b => (fun t => snd t = prefixSum (map value (snd (fst t))))
                       (parsedFields b))
      (parseData settled dataView)).
  { apply Forall_forall. intros b Hb.
    apply parseData_In in Hb. destruct Hb as (c0 & c1 & sc & vc & i & ->).
    exact (proj2 (parseRow_stack _ _ c0 c1 sc vc i)). }
  assert (Hfields : map parsedFields (parseData settled dataView) =
                    map parsedFields (bars (update this options))).
  { rewrite (update_present _ _ _ Hdv Hc). fold settled.
    destruct (List.length (parseData settled dataView) =? 0)%nat;
      [reflexivity|].
    cbn [renderChart set_svgContainer bars].
    symmetry. exact (proj1 (layout_fields _ _ _)). }
  apply (fields_transfer _ _ _ Hfields) in Hparsed.
  assert (Hspan : Forall spanFromTotal (bars (update this options))).
  { rewrite (update_present _ _ _ Hdv Hc). fold settled.
    destruct (List.length (parseData settled dataView) =? 0)%nat eqn:E.
    - apply Nat.eqb_eq, length_zero_nil in E.
      cbn [renderEmptyState set_svgContainer set_bars bars]. rewrite E.
      constructor.
    - cbn [renderChart set_svgContainer bars].
      unfold computeBarPositions. cbn [bars]. apply layoutY_spanFromTotal. }
  rewrite Forall_forall in Hparsed, Hspan |- *.
  intros b Hb. specialize (Hparsed b Hb). specialize (Hspan b Hb).
  cbn [parsedFields fst snd] in Hparsed.
  unfold stackAddsUp, spanFromTotal in *. split; [exact Hparsed|].
  destruct (barType b).
  - rewrite <- Hparsed. exact Hspan.
  - exact Hspan.
  - exact Hspan.
  - destruct Hspan as [Hs He]. split; [exact Hs|].
    rewrite Hs, He. exact Hparsed.
Qed.

End StackProperties.

(** ** The properties at concrete inputs *)

#[local] Existing Instance Reference.builtins.

Lemma step_bars_prefix_sums_witness :
  Forall (fun b => barType b = step) (bars Examples.steps) /\
  (List.length (bars (computeBarPositions Examples.steps 500 300)) = 3%nat /\
   forall i b,
     nth_error (bars (computeBarPositions Examples.steps 500 300)) i = Some b ->
     startY b = prefixSum (firstn i [100; 50; -30]) /\
     endY b = prefixSum (firstn (S i) [100; 50; -30]) /\
     runningTotal
       (snd (layoutY initialY (firstn (S i) (bars Examples.steps)))) = endY b).
Proof.
  assert (Hsteps : Forall (fun b => barType b = step) (bars Examples.steps))
    by (repeat constructor).
  split; [exact Hsteps|].
  exact (step_bars_prefix_sums Examples.steps 500 300 Hsteps).
Defined.

Lemma subtotal_total_keep_running_total_witness :
  (exists pre b post,
     bars Examples.parsed = pre ++ b :: post /\ barType b = subtotal) /\
  (exists b',
     nth_error (bars (computeBarPositions Examples.parsed 500 300)) 2 = Some b' /\
     startY b' = 0 /\ endY b' = 100 + (50 + -5)).
Proof.
  split.
  - eexists (firstn 2 (bars Examples.parsed)), _, _. split; reflexivity.
  - refine (proj1 (proj2
      (subtotal_total_keep_running_total Examples.parsed 500 300
         (firstn 2 (bars Examples.parsed)) _ _ eq_refl (or_introl eq_refl)))).
Defined.

Lemma bar_span_independent_witness :
  (exists pre b post,
     bars Examples.parsed = pre ++ b :: post /\ barType b = bar) /\
  (exists b',
     nth_error (bars (computeBarPositions Examples.parsed 500 300)) 3 = Some b' /\
     startY b' = 0 /\ endY b' = 30).
Proof.
  split.
  - eexists (firstn 3 (bars Examples.parsed)), _, _. split; reflexivity.
  - refine (proj1 (proj2
      (bar_span_independent Examples.parsed 500 300
         (firstn 3 (bars Examples.parsed)) _ _ eq_refl eq_refl))).
Defined.

Lemma parseData_stable_sort_witness :
  (exists c categoryColumn barTypeColumn rest,
     categorical Examples.table = Some c /\
     categories c = Some (categoryColumn :: barTypeColumn :: rest) /\
     List.length (values categoryColumn) = 4%nat) /\
  List.length (parseData Reference.fresh Examples.table) = 4%nat /\
  StronglySorted bySequence (parseData Reference.fresh Examples.table).
Proof.
  split.
  - do 4 eexists. repeat split; reflexivity.
  - pose proof
      (parseData_stable_sort Reference.fresh Examples.table _ _ _ _
         eq_refl eq_refl) as Hsort.
    split; [exact (proj1 Hsort) | exact (proj1 (proj2 Hsort))].
Defined.

Lemma zero_measures_dropped_witness :
  or_number
    (ToNumber (index [PNumber 100; PNumber 50; PNumber 0; PNumber 30] 2)) 0
    == 0 /\
  totalValue
    (parseRow (host Reference.fresh) "#4472C4"
       (Reference.column "Category" []) (Reference.column "Type" [])
       None [Reference.column "Other" [PNumber 0; PNumber (-5); PNumber 7]] 2) =
  totalValue
    (parseRow (host Reference.fresh) "#4472C4"
       (Reference.column "Category" []) (Reference.column "Type" [])
       None
       [Reference.column "Amount"
          [PNumber 100; PNumber 50; PNumber 0; PNumber 30];
        Reference.column "Other" [PNumber 0; PNumber (-5); PNumber 7]] 2).
Proof.
  assert (Hzero : or_number
            (ToNumber
               (index [PNumber 100; PNumber 50; PNumber 0; PNumber 30] 2)) 0
            == 0) by reflexivity.
  split; [exact Hzero|].
  exact (proj2 (proj2 (proj2 (proj2
    (zero_measures_dropped (host Reference.fresh) "#4472C4"
       (Reference.column "Category" []) (Reference.column "Type" []) None
       [Reference.column "Amount"
          [PNumber 100; PNumber 50; PNumber 0; PNumber 30];
        Reference.column "Other" [PNumber 0; PNumber (-5); PNumber 7]] 2)))
    [] _ _ eq_refl Hzero)).
Defined.

Lemma empty_state_iff_no_data_witness :
  inputAbsent {| dataViews := None;
                 viewport := {| width := 500; height := 300 |} |} /\
  childNodes_of
    (svgContainer
       (update Reference.fresh
          {| dataViews := None;
             viewport := {| width := 500; height := 300 |} |})) =
  [emptyStateNode 500 300].
Proof.
  assert (Habsent : inputAbsent
            {| dataViews := None;
               viewport := {| width := 500; height := 300 |} |})
    by reflexivity.
  split; [exact Habsent|].
  exact (proj2 (proj1
    (empty_state_iff_no_data Reference.fresh
       {| dataViews := None; viewport := {| width := 500; height := 300 |} |}))
    (or_introl Habsent)).
Defined.

Lemma zero_sequence_is_row_index_witness :
  ToNumber (index [PNumber 1; PNumber 2; PNumber 0] 2) = Some 0 /\
  sequence
    (parseRow (host Reference.fresh) "#4472C4"
       (Reference.column "Category" []) (Reference.column "Type" [])
       (Some (Reference.column "Sequence" [PNumber 1; PNumber 2; PNumber 0]))
       [] 2) = of_nat 2.
Proof.
  assert (Hcell : ToNumber (index [PNumber 1; PNumber 2; PNumber 0] 2) = Some 0)
    by reflexivity.
  split; [exact Hcell|].
  exact (proj1 (proj2 (proj2
    (proj1 zero_sequence_is_row_index (host Reference.fresh) "#4472C4"
       (Reference.column "Category" []) (Reference.column "Type" [])
       (Reference.column "Sequence" [PNumber 1; PNumber 2; PNumber 0])
       [] 2%nat))) 0 Hcell (Qeq_refl 0)).
Defined.

Lemma separator_at_first_boundary_witness :
  (exists b,
     firstBoundary (bars Examples.positioned) 3 b /\
     0 < xPosition b -
         or_number (_computedBarGap Examples.positioned)
           (barGap (chartSettings (formattingSettings Examples.positioned)))
         / 2) /\
  List.length
    (filter isSeparator
       (childNodes_of
          (svgContainer (renderChart Examples.positioned 500 300)))) = 1%nat.
Proof.
  assert (Hfirst : exists b,
            firstBoundary (bars Examples.positioned) 3 b /\
            0 < xPosition b -
                or_number (_computedBarGap Examples.positioned)
                  (barGap
                     (chartSettings (formattingSettings Examples.positioned)))
                / 2).
  { eexists. split; [split|].
    - exists 2%nat. eexists. repeat split; try reflexivity.
      intros Hc. vm_compute in Hc. discriminate.
    - intros j c Hj (j' & p & -> & Hp & Hc & Hnp & Hcb).
      destruct j' as [|[|j']]; [| |lia];
        vm_compute in Hc; inversion Hc; subst c; discriminate.
    - reflexivity. }
  split; [exact Hfirst|].
  destruct Hfirst as (b & Hb & Hpos).
  exact (proj2 (proj1 (proj2 (proj2
    (separator_at_first_boundary Examples.positioned 500 300))))
    (ex_intro _ 3%nat (ex_intro _ b (conj Hb Hpos)))).
Defined.

(** C9 as stated fails.  In a viewport 10 pixels wide the tenth bar is a
    [bar] after nine steps, yet no separator is drawn; and in a viewport
    70 pixels wide the computed gap is 0 and the separator is drawn at 45,
    half the configured gap to the left of the bar at 50. *)
Lemma separator_not_at_every_boundary :
  (exists i b p,
     (0 < i)%nat /\
     nth_error (bars Examples.narrow) i = Some b /\
     nth_error (bars Examples.narrow) (i - 1) = Some p /\
     barType b = bar /\ barType p <> bar) /\
  filter isSeparator (childNodes_of (svgContainer Examples.narrow)) = [] /\
  (exists b p g,
     nth_error (bars Examples.flat) 1 = Some b /\
     nth_error (bars Examples.flat) 0 = Some p /\
     barType b = bar /\ barType p <> bar /\
     _computedBarGap Examples.flat = Some g /\
     xPosition b - g / 2 == 50 /\
     map (fun n => getAttribute (attributes_of n) "x1")
       (filter isSeparator (childNodes_of (svgContainer Examples.flat))) =
     [Some "45"%string]).
Proof.
  split; [|split].
  - exists 9%nat. do 2 eexists. repeat split; try reflexivity.
    + lia.
    + intros Hc. vm_compute in Hc. discriminate.
  - vm_compute. reflexivity.
  - do 3 eexists. repeat split; try reflexivity.
    intros Hc. vm_compute in Hc. discriminate.
Qed.

Lemma separator_wide_viewport_witness :
  (bars Examples.parsed <> [] /\ 70 < 500 /\ 0 < 40 /\ 0 < 10) /\
  (List.length
     (filter isSeparator
        (childNodes_of
           (svgContainer (renderChart Examples.positioned 500 300)))) = 1%nat <->
   exists i b, boundaryAt (bars Examples.positioned) i b).
Proof.
  assert (Hne : bars Examples.parsed <> []) by discriminate.
  assert (Hvw : 70 < 500) by reflexivity.
  assert (HW : 0 < 40) by reflexivity.
  assert (HG : 0 < 10) by reflexivity.
  split; [repeat split; assumption|].
  exact (proj2 (proj2 (proj2
    (separator_wide_viewport Examples.parsed 500 300 Hne Hvw HW HG)))).
Defined.

Lemma waterfall_spans_witness :
  (exists pre b post,
     bars Examples.parsed = pre ++ b :: post /\ barType b = subtotal) /\
  exists b',
    nth_error (bars (computeBarPositions Examples.parsed 500 300)) 2 =
      Some b' /\
    spanY b' = (0, stepsBefore (firstn 2 (bars Examples.parsed))).
Proof.
  split.
  - eexists (firstn 2 (bars Examples.parsed)), _, _. split; reflexivity.
  - exact (waterfall_spans Examples.parsed 500 300
             (firstn 2 (bars Examples.parsed)) _ _ eq_refl).
Defined.

Lemma layout_keeps_parsed_data_witness :
  StronglySorted bySequence (bars Examples.parsed) /\
  StronglySorted bySequence (bars Examples.positioned).
Proof.
  assert (Hsorted : StronglySorted bySequence (bars Examples.parsed))
    by exact (parseData_sorted Reference.fresh Examples.table).
  split; [exact Hsorted|].
  exact (proj1 (proj2 (layout_keeps_parsed_data Examples.parsed 500 300))
           Hsorted).
Defined.

Lemma parseData_keeps_row_order_witness :
  (exists c categoryColumn barTypeColumn,
     categorical Examples.twoColumns = Some c /\
     categories c = Some [categoryColumn; barTypeColumn] /\
     (1 < List.length (values categoryColumn))%nat) /\
  exists b,
    nth_error (parseData Reference.fresh Examples.twoColumns) 1 = Some b /\
    category b = "b"%string /\ barType b = total.
Proof.
  split.
  - do 3 eexists. repeat split; try reflexivity. cbn. lia.
  - eexists. split.
    + refine (proj2
        (parseData_keeps_row_order Reference.fresh Examples.twoColumns _ _ _ []
           eq_refl eq_refl) eq_refl 1%nat _).
      cbn. lia.
    + split; reflexivity.
Defined.

Lemma blank_row_defaults_witness :
  blank (index [] 0) /\
  parseRow (host Reference.fresh) "#4472C4"
    (Reference.column "Category" []) (Reference.column "Type" [])
    (Some (Reference.column "Sequence" []))
    [Reference.column "Amount" []] 0 = blankBar 0.
Proof.
  assert (Hblank : blank (index [] 0)) by (left; reflexivity).
  split; [exact Hblank|].
  refine (blank_row_defaults (host Reference.fresh) "#4472C4"
            (Reference.column "Category" []) (Reference.column "Type" [])
            (Some (Reference.column "Sequence" []))
            [Reference.column "Amount" []] 0 Hblank Hblank _ _).
  - intros col Hcol. left. now inversion Hcol.
  - constructor; [exact Hblank | constructor].
Defined.

Lemma update_bars_sorted_witness :
  (firstDataView Examples.tableUpdate = Some Examples.table /\
   categorical Examples.table <> None) /\
  StronglySorted bySequence
    (bars (update Reference.fresh Examples.tableUpdate)).
Proof.
  assert (Hdv : firstDataView Examples.tableUpdate = Some Examples.table)
    by reflexivity.
  assert (Hc : categorical Examples.table <> None) by discriminate.
  split; [split; assumption|].
  exact (proj2
    (update_bars_sorted Reference.fresh Examples.tableUpdate Examples.table
       Hdv Hc)).
Defined.

Lemma scale_maximum_witness :
  0 <= 210 /\
  (0 < maxAbsValue (bars Examples.positioned) /\
   maxAbsValue [blankBar 0; blankBar 1] = 1).
Proof.
  assert (Hch : 0 <= 210) by discriminate.
  split; [exact Hch|]. split.
  - exact (proj1 (scale_maximum (bars Examples.positioned) 210 Hch)).
  - apply (proj1 (proj2 (scale_maximum [blankBar 0; blankBar 1] 210 Hch))).
    repeat (constructor; [split; reflexivity|]). constructor.
Defined.

Lemma formatValue_sign_witness :
  0 < 1500 /\ formatValue (- (1500)) = String "-" (formatValue 1500).
Proof.
  assert (Hpos : 0 < 1500) by reflexivity.
  split; [exact Hpos|].
  exact (proj1 formatValue_sign 1500 Hpos).
Defined.

Lemma formatValue_whole_witness :
  (1 <= 7 <= 999)%nat /\
  formatValue (of_nat 7 * 1000) = (digits (Z.of_nat 7) ++ "K")%string.
Proof.
  assert (Hk : (1 <= 7 <= 999)%nat) by lia.
  split; [exact Hk|].
  exact (proj1 (proj2 (formatValue_whole 7 Hk))).
Defined.

Lemma stacks_add_up_witness :
  (firstDataView Examples.tableUpdate = Some Examples.table /\
   categorical Examples.table <> None) /\
  Forall stackAddsUp (bars (update Reference.fresh Examples.tableUpdate)).
Proof.
  assert (Hdv : firstDataView Examples.tableUpdate = Some Examples.table)
    by reflexivity.
  assert (Hc : categorical Examples.table <> None) by discriminate.
  split; [split; assumption|].
  exact (stacks_add_up Reference.fresh Examples.tableUpdate Examples.table
           Hdv Hc).
Defined.
